(** * Gen_AI: record readers, field extractors and pipeline orchestration

    A shallow embedding of [gen_ai_task_2.py] (the review pipeline) and
    [geni_ai_task_1.py] (the email pipeline).

    A Python [str] is a sequence of Unicode code points, so it is modelled
    as a list of code points.  The string methods the two programs call
    ([strip], [startswith], [split] with and without [maxsplit]) are
    modelled after CPython's behaviour.  The remote model, the file system
    and the clock are modelled by a log of events threaded through a small
    state-and-error monad. *)

From Stdlib Require Import String Ascii.
From Stdlib Require Import List NArith Arith Bool Lia.
Import ListNotations.


(** ** Python strings *)

Definition pystr : Type := list N.

(** An ASCII literal of the source, as a Python string. *)
Definition lit (s : string) : pystr :=
  map N_of_ascii (list_ascii_of_string s).

(** The line feed, written ["\n"] in the source. *)
Definition LF : N := 10%N.
Definition COLON : N := 58%N.

(** The empty string. *)
Definition EMPTY : pystr := [].

Definition pystr_eqb (a b : pystr) : bool :=
  if list_eq_dec N.eq_dec a b then true else false.

(** [str.isspace] on one code point: the characters [str.strip()] removes. *)
Definition isspace (c : N) : bool :=
  ((9 <=? c) && (c <=? 13) || (28 <=? c) && (c <=? 32)
   || (c =? 133) || (c =? 160) || (c =? 5760)
   || (8192 <=? c) && (c <=? 8202)
   || (c =? 8232) || (c =? 8233) || (c =? 8239) || (c =? 8287)
   || (c =? 12288))%N.

Fixpoint lstrip (s : pystr) : pystr :=
  match s with
  | c :: s' => if isspace c then lstrip s' else s
  | [] => []
  end.

Definition rstrip (s : pystr) : pystr := rev (lstrip (rev s)).

(** [s.strip()] *)
Definition strip (s : pystr) : pystr := rstrip (lstrip s).

(** Truth value of a string in a condition: non-empty. *)
Definition truthy (s : pystr) : bool :=
  match s with [] => false | _ :: _ => true end.

(** Truth value of [os.getenv(...)]: [None] and the empty string are
    false. *)
Definition truthy_opt (s : option pystr) : bool :=
  match s with
  | Some s => truthy s
  | None => false
  end.

(** [s.startswith(p)] *)
Fixpoint startswith (s p : pystr) {struct p} : bool :=
  match p with
  | [] => true
  | a :: p' =>
      match s with
      | [] => false
      | b :: s' => (a =? b)%N && startswith s' p'
      end
  end.

(** [s.startswith((p1, ..., pk))] *)
Definition startswith_any (s : pystr) (ps : list pystr) : bool :=
  existsb (startswith s) ps.

(** [s.find(sep)], with [None] for Python's [-1]. *)
Fixpoint find (sep s : pystr) : option nat :=
  if startswith s sep then Some 0
  else match s with
       | [] => None
       | _ :: s' => option_map S (find sep s')
       end.

(** ** Exceptions *)

Inductive exn : Type :=
| FileNotFoundError
| OSError
| ValueError
| IndexError
| RemoteError.

Inductive result (A : Type) : Type :=
| Ok (a : A)
| Raise (e : exn).
Arguments Ok {A} a.
Arguments Raise {A} e.

Definition rbind {A B} (r : result A) (k : A -> result B) : result B :=
  match r with
  | Ok a => k a
  | Raise e => Raise e
  end.

Declare Scope result_scope.
Delimit Scope result_scope with R.
Notation "x <- e ;; k" := (rbind e (fun x => k))
  (at level 61, e at next level, right associativity) : result_scope.
Notation "' p <- e ;; k" := (rbind e (fun x => let p := x in k))
  (at level 61, p pattern, e at next level, right associativity)
  : result_scope.

(** ** [str.split(sep, maxsplit)]

    CPython looks for the leftmost occurrence of [sep], cuts the piece that
    precedes it, and goes on after the occurrence, until [maxsplit] cuts
    were made (when a limit is given) or no occurrence is left.  Every cut
    removes at least one character, so [length s] rounds are enough. *)

Definition dec_limit (maxsplit : option nat) : option nat :=
  option_map pred maxsplit.

Definition exhausted (maxsplit : option nat) : bool :=
  match maxsplit with
  | Some O => true
  | _ => false
  end.

Fixpoint split_from (rounds : nat) (sep : pystr) (maxsplit : option nat)
         (s : pystr) : list pystr :=
  match rounds with
  | O => [s]
  | S rounds' =>
      if exhausted maxsplit then [s]
      else match find sep s with
           | None => [s]
           | Some i =>
               firstn i s ::
               split_from rounds' sep (dec_limit maxsplit)
                          (skipn (i + length sep) s)
           end
  end.

(** An empty separator raises [ValueError: empty separator]. *)
Definition split (s sep : pystr) (maxsplit : option nat)
  : result (list pystr) :=
  match sep with
  | [] => Raise ValueError
  | _ :: _ => Ok (split_from (length s) sep maxsplit s)
  end.

(** [xs[i]], raising [IndexError] out of range (non-negative [i] only). *)
Definition index {A} (xs : list A) (i : nat) : result A :=
  match nth_error xs i with
  | Some x => Ok x
  | None => Raise IndexError
  end.

(** [sep.join(xs)], used to state what splitting preserves. *)
Fixpoint join (sep : pystr) (xs : list pystr) : pystr :=
  match xs with
  | [] => []
  | [x] => x
  | x :: xs' => x ++ sep ++ join sep xs'
  end.

(** [line.split(":", 1)[1]]: the text after the first colon.  Without a
    colon the list has one element and the subscript raises. *)
Definition split_colon_1 (line : pystr) : result pystr :=
  (parts <- split line (lit ":") (Some 1) ;; index parts 1)%R.

(** A [for] loop over a list whose body may raise, with the variables the
    body assigns threaded as [st]. *)
Fixpoint rfor {A St} (body : St -> A -> result St) (st : St) (xs : list A)
  : result St :=
  match xs with
  | [] => Ok st
  | x :: xs' => (st' <- body st x ;; rfor body st' xs')%R
  end.

(** ** The world a run lives in, and what a run does to it *)

Record world : Type := {
  (** the text files that can be opened for reading *)
  file_content : pystr -> option pystr;
  (** the paths that can be opened for writing *)
  can_write : pystr -> bool;
  (** the remote model: its answer to a message given the earlier turns of
      the session, or a failure of the call *)
  remote : list (pystr * pystr) -> pystr -> option pystr
}.

Definition row : Type := list pystr.

Inductive event : Type :=
| Send (message : pystr) (answer : option pystr)
| Sleep (seconds : N)
| WriteCsv (path : pystr) (rows : list row).

Definition trace : Type := list event.

(** The turns accumulated by the chat session. *)
Definition turn_of (e : event) : list (pystr * pystr) :=
  match e with
  | Send m (Some a) => [(m, a)]
  | _ => []
  end.

Definition history (tr : trace) : list (pystr * pystr) :=
  flat_map turn_of tr.

Definition M (A : Type) : Type := trace -> result A * trace.

Definition ret {A} (a : A) : M A := fun tr => (Ok a, tr).

Definition raise {A} (e : exn) : M A := fun tr => (Raise e, tr).

Definition bind {A B} (m : M A) (k : A -> M B) : M B :=
  fun tr =>
    match m tr with
    | (Ok a, tr') => k a tr'
    | (Raise e, tr') => (Raise e, tr')
    end.

Definition lift {A} (r : result A) : M A := fun tr => (r, tr).

Declare Scope run_scope.
Delimit Scope run_scope with M.
Notation "x <- e ;; k" := (bind e (fun x => k))
  (at level 61, e at next level, right associativity) : run_scope.
Notation "' p <- e ;; k" := (bind e (fun x => let p := x in k))
  (at level 61, p pattern, e at next level, right associativity) : run_scope.
Notation "e ;; k" := (bind e (fun _ => k))
  (at level 61, right associativity) : run_scope.

(** A [for] loop whose body acts on the world. *)
Fixpoint mfor {A St} (body : St -> A -> M St) (st : St) (xs : list A)
  : M St :=
  match xs with
  | [] => ret st
  | x :: xs' => (st' <- body st x ;; mfor body st' xs')%M
  end.

Section Effects.

Variable w : world.

(** [open(file_path, 'r')] followed by [file.read()] *)
Definition read_file (file_path : pystr) : M pystr :=
  match file_content w file_path with
  | Some content => ret content
  | None => raise FileNotFoundError
  end.

(** [chat_session.send_message(message).text]: one turn on the shared
    session; a failed call raises and adds no turn to the session. *)
Definition send_message (message : pystr) : M pystr :=
  fun tr =>
    match remote w (history tr) message with
    | Some answer => (Ok answer, tr ++ [Send message (Some answer)])
    | None => (Raise RemoteError, tr ++ [Send message None])
    end.

(** [time.sleep(seconds)] *)
Definition sleep (seconds : N) : M unit :=
  fun tr => (Ok tt, tr ++ [Sleep seconds]).

(** [csv.writer(file).writerow(header)] then [writerows(data)] on a file
    opened with mode ['w']: the file is replaced by these rows. *)
Definition write_csv (csv_file : pystr) (rows : list row) : M unit :=
  fun tr =>
    if can_write w csv_file
    then (Ok tt, tr ++ [WriteCsv csv_file rows])
    else (Raise OSError, tr).

End Effects.

(** ** The review pipeline, [gen_ai_task_2.py] *)

Module Reviews.

Definition default_delimiter : pystr := lit "---END OF REVIEW---".

Definition review_line (st : pystr * pystr) (line : pystr)
  : result (pystr * pystr) :=
  let '(product, review_text) := st in
  if startswith line (lit "Product:") then
    (v <- split_colon_1 line ;; Ok (strip v, review_text))%R
  else if startswith line (lit "Review:") then
    (v <- split_colon_1 line ;; Ok (product, strip v))%R
  else Ok (product, review_text).

Definition extract_review_info (review : pystr) : result (pystr * pystr) :=
  (lines <- split review [LF] None ;;
   rfor review_line (EMPTY, EMPTY) lines)%R.

(** Lines 69-70 of [analyze_sentiment]: the allow-list check on the
    stripped answer of the classification call. *)
Definition allowed_sentiments : list pystr :=
  [lit "Positive"; lit "Negative"; lit "Neutral"].

Definition normalize_sentiment (sentiment : pystr) : pystr :=
  if negb (existsb (pystr_eqb sentiment) allowed_sentiments)
  then lit "Neutral"
  else sentiment.

Definition classify_prompt : pystr :=
  lit "Classify the sentiment of this review as Positive, Negative, or Neutral: ".
Definition reply_prompt : pystr :=
  lit "Write a reply to this review based on the sentiment: ".
Definition reply_prompt_review : pystr := lit ". Review: ".
Definition guess_prompt : pystr :=
  lit "Guess the product name based on this review in one word: ".

Definition header : row :=
  [lit "Original Product"; lit "Guessed Product"; lit "Review";
   lit "Sentiment"; lit "Reply"].

Section Run.

Variable w : world.

Definition read_reviews (file_path delimiter : pystr) : M (list pystr) :=
  (content <- read_file w file_path ;;
   reviews <- lift (split content delimiter None) ;;
   ret (map strip (filter (fun review => truthy (strip review)) reviews)))%M.

Definition analyze_sentiment (review_text : pystr) : M (pystr * pystr) :=
  (sentiment_response <- send_message w (classify_prompt ++ review_text) ;;
   let sentiment := normalize_sentiment (strip sentiment_response) in
   reply_response <- send_message w
     (reply_prompt ++ sentiment ++ reply_prompt_review ++ review_text) ;;
   ret (sentiment, strip reply_response))%M.

Definition guess_product (review_text : pystr) : M pystr :=
  (product_response <- send_message w (guess_prompt ++ review_text) ;;
   ret (strip product_response))%M.

Definition save_to_csv (data : list row) (csv_file : pystr) : M unit :=
  write_csv w csv_file (header :: data).

(** The body of the loop of [process_reviews]. *)
Definition process_review (data : list row) (review : pystr) : M (list row) :=
  ('(original_product, review_text) <- lift (extract_review_info review) ;;
   guessed_product <- guess_product review_text ;;
   '(sentiment, reply) <- analyze_sentiment review_text ;;
   let data :=
     data ++ [[original_product; guessed_product; review_text; sentiment; reply]]
   in
   sleep 2 ;;
   ret data)%M.

Definition process_reviews (file_path csv_file delimiter : pystr) : M unit :=
  (reviews <- read_reviews file_path delimiter ;;
   data <- mfor process_review [] reviews ;;
   save_to_csv data csv_file)%M.

(** [main].  [environ] is the process environment once [load_dotenv()] has
    run.  Configuring the client and building the model and the session
    act on local objects only and are taken not to raise; what the remote
    service does with the key is part of [remote w].  The session starts
    without history.  The body of [try] either ends or raises;
    [except Exception as e] prints the exception and the script ends
    normally: the result is the exception that was printed, if any, with
    the events of the run. *)
Definition main (environ : pystr -> option pystr) : option exn * trace :=
  let body : M unit :=
    let api_key := environ (lit "GEMINI_API_KEY") in
    if negb (truthy_opt api_key)
    then raise ValueError
    else process_reviews (lit "reviews.txt") (lit "transformed_reviews.csv")
                         default_delimiter in
  match body [] with
  | (Ok _, tr) => (None, tr)
  | (Raise e, tr) => (Some e, tr)
  end.

End Run.

End Reviews.

(** ** The email pipeline, [geni_ai_task_1.py] *)

Module Emails.

Definition default_delimiter : pystr := lit "---END OF EMAIL---".

Definition email_line (st : pystr * pystr * pystr) (line : pystr)
  : result (pystr * pystr * pystr) :=
  let '(sender, receiver, body) := st in
  if startswith line (lit "From:") then
    (v <- split_colon_1 line ;; Ok (strip v, receiver, body))%R
  else if startswith line (lit "To:") then
    (v <- split_colon_1 line ;; Ok (sender, strip v, body))%R
  else if negb (startswith_any line [lit "Subject:"; lit "From:"; lit "To:"])
  then Ok (sender, receiver, body ++ strip line ++ lit " ")
  else Ok (sender, receiver, body).

Definition extract_email_info (email : pystr)
  : result (pystr * pystr * pystr) :=
  (lines <- split email [LF] None ;;
   '(sender, receiver, body) <-
     rfor email_line (EMPTY, EMPTY, EMPTY) lines ;;
   Ok (sender, receiver, strip body))%R.

Definition summarize_prompt : pystr := lit "Summarize the following email: ".
Definition translate_prompt : pystr :=
  lit "Translate the following text to Telugu: ".

Definition header : row :=
  [lit "Sender"; lit "Receiver"; lit "Summary (EN)"; lit "Summary (DE)"].

Section Run.

Variable w : world.

Definition read_emails (file_path delimiter : pystr) : M (list pystr) :=
  (content <- read_file w file_path ;;
   emails <- lift (split content delimiter None) ;;
   ret (map strip (filter (fun email => truthy (strip email)) emails)))%M.

Definition summarize_email (body : pystr) : M pystr :=
  send_message w (summarize_prompt ++ body).

Definition translate_email (text : pystr) : M pystr :=
  send_message w (translate_prompt ++ text).

Definition save_to_csv (data : list row) (csv_file : pystr) : M unit :=
  write_csv w csv_file (header :: data).

(** The body of the loop of [process_emails]. *)
Definition process_email (data : list row) (email : pystr) : M (list row) :=
  ('(sender, receiver, body) <- lift (extract_email_info email) ;;
   summary_en <- summarize_email body ;;
   summary_de <- translate_email summary_en ;;
   ret (data ++ [[sender; receiver; summary_en; summary_de]]))%M.

Definition process_emails (file_path csv_file delimiter : pystr) : M unit :=
  (emails <- read_emails file_path delimiter ;;
   data <- mfor process_email [] emails ;;
   save_to_csv data csv_file)%M.

(** [main], as in the review pipeline, with the files of this one. *)
Definition main (environ : pystr -> option pystr) : option exn * trace :=
  let body : M unit :=
    let api_key := environ (lit "GEMINI_API_KEY") in
    if negb (truthy_opt api_key)
    then raise ValueError
    else process_emails (lit "email.txt") (lit "transformed_emails.csv")
                        default_delimiter in
  match body [] with
  | (Ok _, tr) => (None, tr)
  | (Raise e, tr) => (Some e, tr)
  end.

End Run.

End Emails.

(** * Specifications

    The notions the properties below are stated with: what it means to cut
    a text at the occurrences of a separator, to be trimmed, and to be the
    value of a field. *)

(** [sep] occurs somewhere in [s]. *)
Definition occurs (sep s : pystr) : Prop :=
  exists pre post, s = pre ++ sep ++ post.

(** [pieces] are the pieces of [s] between the occurrences of [sep], found
    from left to right, every occurrence starting where the previous one
    ended at the earliest. *)
Inductive split_spec (sep : pystr) : pystr -> list pystr -> Prop :=
| split_spec_end (s : pystr) :
    ~ occurs sep s ->
    split_spec sep s [s]
| split_spec_cut (p rest : pystr) (ps : list pystr) :
    (forall pre post, p ++ sep ++ rest = pre ++ sep ++ post ->
                      length p <= length pre) ->
    split_spec sep rest ps ->
    split_spec sep (p ++ sep ++ rest) (p :: ps).

(** A text that neither starts nor ends with white space. *)
Definition clean_head (s : pystr) : Prop :=
  match s with
  | c :: _ => isspace c = false
  | [] => True
  end.

Definition clean (s : pystr) : Prop := clean_head s /\ clean_head (rev s).

(** [t] is [s] without its leading and trailing white space. *)
Definition trimmed_of (s t : pystr) : Prop :=
  exists l r, s = l ++ t ++ r /\
              forallb isspace l = true /\ forallb isspace r = true /\
              clean t.

(** Everything after the first occurrence of the character [c]. *)
Fixpoint after_first (c : N) (s : pystr) : pystr :=
  match s with
  | [] => []
  | x :: s' => if (x =? c)%N then s' else after_first c s'
  end.

(** The last of [lines] that starts with [prefix], when there is one. *)
Definition last_with_prefix (prefix : pystr) (lines : list pystr)
  : option pystr :=
  List.find (fun line => startswith line prefix) (rev lines).

(** The value of the field [prefix]: what follows the first colon of the
    last line that starts with [prefix], trimmed; empty without such a
    line. *)
Definition field_value (prefix : pystr) (lines : list pystr) : pystr :=
  match last_with_prefix prefix lines with
  | Some line => strip (after_first COLON line)
  | None => EMPTY
  end.

(** The value of a field over [lines] when it held [default] before. *)
Definition field_from (prefix default : pystr) (lines : list pystr) : pystr :=
  match last_with_prefix prefix lines with
  | Some line => strip (after_first COLON line)
  | None => default
  end.

(** The lines that go to the body: those with none of the three headers. *)
Definition is_body_line (line : pystr) : bool :=
  negb (startswith_any line [lit "Subject:"; lit "From:"; lit "To:"]).

Definition body_lines (lines : list pystr) : list pystr :=
  filter is_body_line lines.

(** The body accumulator after [lines]: every body line trimmed and
    followed by a space. *)
Definition body_text (lines : list pystr) : pystr :=
  concat (map (fun line => strip line ++ lit " ") (body_lines lines)).

(** ** Runs *)

(** The records of a file: the pieces between the delimiters, trimmed,
    the empty ones dropped. *)
Definition segments (content delimiter : pystr) : list pystr :=
  filter truthy
    (map strip (split_from (length content) delimiter None content)).

Definition is_write (e : event) : bool :=
  match e with WriteCsv _ _ => true | _ => false end.

Definition is_sleep (e : event) : bool :=
  match e with Sleep _ => true | _ => false end.

Definition is_failed_send (e : event) : bool :=
  match e with Send _ None => true | _ => false end.

Definition is_answered_send (e : event) : bool :=
  match e with Send _ (Some _) => true | _ => false end.

(** The number of pauses of a run. *)
Definition pauses (ev : list event) : nat := length (filter is_sleep ev).

(** The kind of an event, without its payload. *)
Inductive kind : Type :=
| KSend
| KSleep (seconds : N)
| KWrite.

Definition kind_of (e : event) : kind :=
  match e with
  | Send _ _ => KSend
  | Sleep n => KSleep n
  | WriteCsv _ _ => KWrite
  end.

(** What one review does when every call is answered: the row it adds and
    the events it causes, [g], [s] and [r] being the raw answers. *)
Inductive review_step (review : pystr) : row -> list event -> Prop :=
| review_step_intro (product text g s r : pystr) :
    Reviews.extract_review_info review = Ok (product, text) ->
    let sentiment := Reviews.normalize_sentiment (strip s) in
    review_step review
      [product; strip g; text; sentiment; strip r]
      [Send (Reviews.guess_prompt ++ text) (Some g);
       Send (Reviews.classify_prompt ++ text) (Some s);
       Send (Reviews.reply_prompt ++ sentiment
               ++ Reviews.reply_prompt_review ++ text) (Some r);
       Sleep 2].

(** The same for one email. *)
Inductive email_step (email : pystr) : row -> list event -> Prop :=
| email_step_intro (sender receiver body summary_en summary_de : pystr) :
    Emails.extract_email_info email = Ok (sender, receiver, body) ->
    email_step email
      [sender; receiver; summary_en; summary_de]
      [Send (Emails.summarize_prompt ++ body) (Some summary_en);
       Send (Emails.translate_prompt ++ summary_en) (Some summary_de)].

(** The events of a record during which a call failed: some answered
    calls, then the call that failed. *)
Definition aborted (w : world) (part : list event) : Prop :=
  exists sent m h,
    part = sent ++ [Send m None] /\
    forallb is_answered_send sent = true /\
    remote w h m = None.

Section Steps.

Variable step : pystr -> row -> list event -> Prop.

(** Records processed one after the other: their rows and their events,
    both in the order of the records. *)
Inductive steps : list pystr -> list row -> list event -> Prop :=
| steps_nil : steps [] [] []
| steps_cons rec recs r rows ev evs :
    step rec r ev -> steps recs rows evs ->
    steps (rec :: recs) (r :: rows) (ev ++ evs).

(** The ways a run of a pipeline ends, with the events it caused. *)
Inductive outcome (w : world) (hdr : row) (file_path csv_file delimiter : pystr)
  : result unit -> list event -> Prop :=
| run_no_file :
    file_content w file_path = None ->
    outcome w hdr file_path csv_file delimiter (Raise FileNotFoundError) []
| run_empty_delimiter content :
    file_content w file_path = Some content ->
    delimiter = [] ->
    outcome w hdr file_path csv_file delimiter (Raise ValueError) []
| run_aborted content done rec rest rows ev part :
    file_content w file_path = Some content ->
    delimiter <> [] ->
    segments content delimiter = done ++ rec :: rest ->
    steps done rows ev ->
    aborted w part ->
    outcome w hdr file_path csv_file delimiter (Raise RemoteError) (ev ++ part)
| run_unwritable content rows ev :
    file_content w file_path = Some content ->
    delimiter <> [] ->
    steps (segments content delimiter) rows ev ->
    can_write w csv_file = false ->
    outcome w hdr file_path csv_file delimiter (Raise OSError) ev
| run_completed content rows ev :
    file_content w file_path = Some content ->
    delimiter <> [] ->
    steps (segments content delimiter) rows ev ->
    can_write w csv_file = true ->
    outcome w hdr file_path csv_file delimiter (Ok tt)
      (ev ++ [WriteCsv csv_file (hdr :: rows)]).

End Steps.

(** What the record readers return. *)
Definition read_result (w : world) (file_path delimiter : pystr)
  : result (list pystr) :=
  match file_content w file_path with
  | None => Raise FileNotFoundError
  | Some content =>
      match delimiter with
      | [] => Raise ValueError
      | _ :: _ => Ok (segments content delimiter)
      end
  end.

(** ** The session and the calls of a run *)



Definition is_send (e : event) : bool :=
  match e with Send _ _ => true | _ => false end.

(** The number of remote calls of a run. *)
Definition calls (ev : list event) : nat := length (filter is_send ev).

(** An environment that holds the API key, and one that holds nothing. *)
Definition environ_with_key (key : pystr) : pystr -> option pystr :=
  fun name => if pystr_eqb name (lit "GEMINI_API_KEY") then Some key else None.


(** A world in which no path can be written. *)
Definition read_only_world (path content : pystr)
           (model : list (pystr * pystr) -> pystr -> option pystr) : world :=
  {| file_content := fun p => if pystr_eqb p path then Some content else None;
     can_write := fun _ => false;
     remote := model |}.

(** ** Worlds and texts for the examples *)

(** One readable file, every path writable, the remote model given. *)
Definition one_file_world (path content : pystr)
           (model : list (pystr * pystr) -> pystr -> option pystr) : world :=
  {| file_content := fun p => if pystr_eqb p path then Some content else None;
     can_write := fun _ => true;
     remote := model |}.

(** A model that answers every message with [a]. *)
Definition answers (a : pystr) : list (pystr * pystr) -> pystr -> option pystr :=
  fun _ _ => Some a.

(** A model whose call fails once the session holds [k] turns. *)
Definition fails_after (k : nat) (a : pystr)
  : list (pystr * pystr) -> pystr -> option pystr :=
  fun h _ => if length h =? k then None else Some a.

(** Lines joined by line feeds. *)
Definition text (lines : list pystr) : pystr := join [LF] lines.

Definition shoes_review : pystr :=
  text [lit "Product: Shoes"; lit "Review: Great fit"].

Definition order_email : pystr :=
  text [lit "From: a@x.com"; lit "To: b@x.com"; lit "Subject: Hi";
        lit "Thanks for the order."].

(** Five reviews, each followed by the delimiter. *)
Definition five_reviews : pystr :=
  concat (repeat (shoes_review ++ Reviews.default_delimiter) 5).

(** Two different reviews, each followed by the delimiter. *)
Definition hat_review : pystr :=
  text [lit "Product: Hat"; lit "Review: Too small"].

Definition two_reviews : pystr :=
  shoes_review ++ Reviews.default_delimiter
  ++ [LF] ++ hat_review ++ Reviews.default_delimiter.

Definition reviews_world (content : pystr)
           (model : list (pystr * pystr) -> pystr -> option pystr) : world :=
  one_file_world (lit "reviews.txt") content model.

Definition emails_world (content : pystr)
           (model : list (pystr * pystr) -> pystr -> option pystr) : world :=
  one_file_world (lit "email.txt") content model.

(** The body of an email as the sentence "every line not starting with a
    header is appended, followed by a space" reads when the line is taken
    as it stands. *)
Definition body_text_untrimmed (lines : list pystr) : pystr :=
  concat (map (fun line => line ++ lit " ") (body_lines lines)).

(** * Python strings: facts *)

Lemma startswith_app (p s : pystr) : startswith (p ++ s) p = true.
Proof.
  induction p as [|a p IH]; simpl; [reflexivity|].
  now rewrite N.eqb_refl, IH.
Qed.

Lemma startswith_inv (s p : pystr) :
  startswith s p = true -> s = p ++ skipn (length p) s.
Proof.
  revert s; induction p as [|a p IH]; intros s H; simpl in *.
  - reflexivity.
  - destruct s as [|b s]; [discriminate|].
    apply andb_true_iff in H as [Hab Hs].
    apply N.eqb_eq in Hab; subst b.
    simpl. f_equal. now apply IH.
Qed.

Lemma startswith_iff (s p : pystr) :
  startswith s p = true <-> exists r, s = p ++ r.
Proof.
  split.
  - intros H. eexists. now apply startswith_inv.
  - intros [r ->]. apply startswith_app.
Qed.

Lemma find_eq (sep s : pystr) :
  find sep s =
  if startswith s sep then Some 0
  else match s with
       | [] => None
       | _ :: s' => option_map S (find sep s')
       end.
Proof. destruct s; reflexivity. Qed.

Lemma find_Some (sep s : pystr) (i : nat) :
  find sep s = Some i ->
  s = firstn i s ++ sep ++ skipn (i + length sep) s /\
  forall pre post, s = pre ++ sep ++ post -> i <= length pre.
Proof.
  revert i; induction s as [|c s IH]; intros i; rewrite find_eq.
  - destruct (startswith [] sep) eqn:E; [|discriminate].
    intros [= <-]. split; [|intros; lia].
    now apply startswith_inv in E.
  - destruct (startswith (c :: s) sep) eqn:E.
    + intros [= <-]. split; [|intros; lia].
      now apply startswith_inv in E.
    + destruct (find sep s) as [j|] eqn:F; [|discriminate].
      intros [= <-]. destruct (IH j eq_refl) as [Hs Hmin]. split.
      * simpl. f_equal. exact Hs.
      * intros [|x pre] post Heq.
        -- simpl in Heq. rewrite Heq, startswith_app in E. discriminate.
        -- simpl in Heq. injection Heq as _ Heq.
           apply Hmin in Heq. simpl. lia.
Qed.

Lemma find_None (sep s : pystr) : find sep s = None -> ~ occurs sep s.
Proof.
  induction s as [|c s IH]; rewrite find_eq.
  - destruct (startswith [] sep) eqn:E; [discriminate|].
    intros _ (pre & post & Heq).
    destruct pre; [|discriminate]. simpl in Heq.
    rewrite Heq, startswith_app in E. discriminate.
  - destruct (startswith (c :: s) sep) eqn:E; [discriminate|].
    destruct (find sep s) eqn:F; [discriminate|].
    intros _ (pre & post & Heq). destruct pre as [|x pre]; simpl in Heq.
    + rewrite Heq, startswith_app in E. discriminate.
    + injection Heq as _ Heq. apply IH; [reflexivity|].
      now exists pre, post.
Qed.

Lemma find_not_occurs (sep s : pystr) : ~ occurs sep s -> find sep s = None.
Proof.
  intros H. destruct (find sep s) as [i|] eqn:F; [|reflexivity].
  exfalso. apply H. apply find_Some in F as [Hs _].
  now exists (firstn i s), (skipn (i + length sep) s).
Qed.

(** ** [strip] *)

Lemma lstrip_decomp (s : pystr) :
  exists ws, s = ws ++ lstrip s /\ forallb isspace ws = true.
Proof.
  induction s as [|c s (ws & Hs & Hws)]; simpl.
  - now exists [].
  - destruct (isspace c) eqn:E.
    + exists (c :: ws). simpl. rewrite E, Hws. split; [now f_equal|reflexivity].
    + now exists [].
Qed.

Lemma lstrip_head (s : pystr) : clean_head (lstrip s).
Proof.
  induction s as [|c s IH]; simpl; [exact I|].
  destruct (isspace c) eqn:E; [exact IH|exact E].
Qed.

Lemma lstrip_id (s : pystr) : clean_head s -> lstrip s = s.
Proof. destruct s as [|c s]; simpl; [reflexivity|]. now intros ->. Qed.

Lemma lstrip_spaces (ws s : pystr) :
  forallb isspace ws = true -> lstrip (ws ++ s) = lstrip s.
Proof.
  induction ws as [|c ws IH]; simpl; [reflexivity|].
  intros H. apply andb_true_iff in H as [-> H]. now apply IH.
Qed.

Lemma rstrip_decomp (s : pystr) :
  exists ws, s = rstrip s ++ ws /\ forallb isspace ws = true.
Proof.
  unfold rstrip. destruct (lstrip_decomp (rev s)) as (ws & Hs & Hws).
  exists (rev ws). split.
  - rewrite <- rev_app_distr, <- Hs. now rewrite rev_involutive.
  - rewrite forallb_forall in *. intros x Hx. apply Hws.
    now apply in_rev.
Qed.

Lemma rstrip_last (s : pystr) : clean_head (rev (rstrip s)).
Proof. unfold rstrip. rewrite rev_involutive. apply lstrip_head. Qed.

Lemma rstrip_head (s : pystr) : clean_head s -> clean_head (rstrip s).
Proof.
  destruct (rstrip_decomp s) as (ws & Hs & _).
  destruct (rstrip s) as [|c t]; [intros; exact I|].
  rewrite Hs. simpl. auto.
Qed.

Lemma rstrip_id (s : pystr) : clean_head (rev s) -> rstrip s = s.
Proof.
  intros H. unfold rstrip. rewrite lstrip_id by exact H.
  apply rev_involutive.
Qed.

Lemma strip_clean (s : pystr) : clean (strip s).
Proof.
  split.
  - apply rstrip_head, lstrip_head.
  - apply rstrip_last.
Qed.

Lemma strip_id (s : pystr) : clean s -> strip s = s.
Proof.
  intros [Hh Hl]. unfold strip. rewrite lstrip_id by exact Hh.
  now apply rstrip_id.
Qed.

Lemma strip_idempotent (s : pystr) : strip (strip s) = strip s.
Proof. apply strip_id, strip_clean. Qed.

Lemma strip_trimmed (s : pystr) : trimmed_of s (strip s).
Proof.
  destruct (lstrip_decomp s) as (l & Hl & Hwl).
  destruct (rstrip_decomp (lstrip s)) as (r & Hr & Hwr).
  exists l, r. repeat split; try assumption; try apply strip_clean.
  unfold strip. now rewrite <- Hr.
Qed.

Lemma strip_infix (s : pystr) : exists l r, s = l ++ strip s ++ r.
Proof.
  destruct (strip_trimmed s) as (l & r & H & _). now exists l, r.
Qed.

(** ** [split] *)

Lemma occurs_nil_inv (sep : pystr) : occurs sep [] -> sep = [].
Proof.
  intros (pre & post & H). symmetry in H.
  apply app_eq_nil in H as [_ H]. now apply app_eq_nil in H as [H _].
Qed.

Lemma app_same_length {A} (a a' b b' : list A) :
  length a = length a' -> a ++ b = a' ++ b' -> a = a' /\ b = b'.
Proof.
  revert a'; induction a as [|x a IH]; intros [|y a'] Hlen H;
    try discriminate; simpl in *.
  - now split.
  - injection H as -> H. injection Hlen as Hlen.
    destruct (IH _ Hlen H) as [-> ->]. now split.
Qed.

Lemma split_from_spec (n : nat) (sep s : pystr) :
  sep <> [] -> length s <= n ->
  split_spec sep s (split_from n sep None s).
Proof.
  intros Hsep. revert s; induction n as [|n IH]; intros s Hlen; simpl.
  - destruct s; [|simpl in Hlen; lia].
    apply split_spec_end. intros H. now apply occurs_nil_inv in H.
  - destruct (find sep s) as [i|] eqn:F.
    + destruct (find_Some _ _ _ F) as [Hs Hmin].
      assert (Hl : length s =
                   length (firstn i s) + length sep
                   + length (skipn (i + length sep) s)).
      { rewrite Hs at 1. rewrite !length_app. lia. }
      assert (0 < length sep) by (destruct sep; [congruence|simpl; lia]).
      rewrite Hs at 1. apply split_spec_cut.
      * rewrite <- Hs. intros pre post Heq. apply Hmin in Heq.
        rewrite length_firstn. lia.
      * apply IH. lia.
    + apply split_spec_end. now apply find_None.
Qed.

Lemma split_spec_fun (sep s : pystr) (ps qs : list pystr) :
  split_spec sep s ps -> split_spec sep s qs -> ps = qs.
Proof.
  intros H; revert qs.
  induction H as [s Hno|p rest ps Hmin Hrest IH]; intros qs Hq.
  - inversion Hq as [s' _ E|p' rest' ps' _ _ E]; subst; [reflexivity|].
    exfalso. apply Hno. now exists p', rest'.
  - inversion Hq as [s' Hno E|p' rest' ps' Hmin' Hrest' E]; subst.
    + exfalso. apply Hno. now exists p, rest.
    + assert (Hlen : length p = length p').
      { apply Nat.le_antisymm.
        - apply (Hmin p' rest'). now symmetry.
        - apply (Hmin' p rest). exact E. }
      symmetry in E.
      destruct (app_same_length _ _ _ _ Hlen E) as [Hp _].
      subst p'. apply app_inv_head in E. apply app_inv_head in E. subst rest'.
      f_equal. now apply IH.
Qed.

Lemma split_spec_pieces (sep s : pystr) (ps : list pystr) :
  sep <> [] -> split_spec sep s ps ->
  forall p, In p ps -> ~ occurs sep p.
Proof.
  intros Hsep H. induction H as [s Hno|p rest ps Hmin Hrest IH];
    intros q [<-|Hin]; try assumption; try contradiction.
  - intros (a & b & Hq).
    specialize (Hmin a (b ++ sep ++ rest)).
    rewrite Hq in Hmin at 1. rewrite <- !app_assoc in Hmin.
    specialize (Hmin eq_refl). rewrite Hq, !length_app in Hmin.
    destruct sep; [congruence|simpl in Hmin; lia].
  - now apply IH.
Qed.

Lemma split_spec_join (sep s : pystr) (ps : list pystr) :
  split_spec sep s ps -> join sep ps = s.
Proof.
  induction 1 as [s _|p rest ps _ Hrest IH]; [reflexivity|].
  simpl. rewrite IH. destruct ps; [inversion Hrest|reflexivity].
Qed.

Lemma split_from_not_occurs (n : nat) (sep : pystr) (m : option nat)
      (s : pystr) :
  ~ occurs sep s -> split_from n sep m s = [s].
Proof.
  intros H. destruct n; simpl; [reflexivity|].
  destruct (exhausted m); [reflexivity|].
  now rewrite find_not_occurs.
Qed.

Lemma split_unlimited (s sep : pystr) :
  sep <> [] ->
  exists pieces, split s sep None = Ok pieces /\ split_spec sep s pieces.
Proof.
  intros Hsep. exists (split_from (length s) sep None s). split.
  - unfold split. destruct sep; [congruence|reflexivity].
  - now apply split_from_spec.
Qed.

Lemma split_lines (s : pystr) :
  exists lines, split s [LF] None = Ok lines /\ split_spec [LF] s lines.
Proof. apply split_unlimited. discriminate. Qed.

Lemma map_strip_filter (xs : list pystr) :
  map strip (filter (fun x => truthy (strip x)) xs) =
  filter truthy (map strip xs).
Proof.
  induction xs as [|x xs IH]; simpl; [reflexivity|].
  destruct (truthy (strip x)); simpl; now rewrite IH.
Qed.

(** ** The text after the first colon *)

Lemma find_char (c x : N) (s : pystr) :
  find [c] (x :: s) =
  if (c =? x)%N then Some 0 else option_map S (find [c] s).
Proof.
  rewrite find_eq. simpl. now destruct (c =? x)%N.
Qed.

Lemma find_char_after (c : N) (s : pystr) :
  In c s ->
  exists i, find [c] s = Some i /\
            skipn (i + 1) s = after_first c s /\
            i + S (length (after_first c s)) = length s.
Proof.
  induction s as [|y s IH]; [contradiction|]. intros Hy.
  rewrite find_char. simpl after_first. rewrite (N.eqb_sym y c).
  destruct (c =? y)%N eqn:E.
  - exists 0. simpl. repeat split; lia.
  - destruct Hy as [->|Hy]; [now rewrite N.eqb_refl in E|].
    destruct (IH Hy) as (i & -> & Hsk & Hi).
    exists (S i). simpl. repeat split; try assumption; lia.
Qed.

Lemma split_once_char (c : N) (s : pystr) :
  In c s ->
  split_from (length s) [c] (Some 1) s =
  [firstn (length s - S (length (after_first c s))) s; after_first c s].
Proof.
  intros Hin. destruct (find_char_after _ _ Hin) as (i & F & Hsk & Hi).
  replace (length s - S (length (after_first c s))) with i by lia.
  destruct (length s) as [|n] eqn:L; [lia|].
  simpl. rewrite F, Hsk. f_equal.
  destruct n; reflexivity.
Qed.

Lemma split_colon_1_ok (line : pystr) :
  In COLON line -> split_colon_1 line = Ok (after_first COLON line).
Proof.
  intros H. unfold split_colon_1. change (lit ":") with [COLON].
  unfold split. now rewrite split_once_char.
Qed.

Lemma startswith_In (line p : pystr) (c : N) :
  In c p -> startswith line p = true -> In c line.
Proof.
  intros Hc H. apply startswith_inv in H. rewrite H.
  apply in_or_app. now left.
Qed.

(** ** Fields *)

Lemma find_snoc {A} (f : A -> bool) (xs : list A) (x : A) :
  List.find f (xs ++ [x]) =
  match List.find f xs with
  | Some y => Some y
  | None => if f x then Some x else None
  end.
Proof.
  induction xs as [|y xs IH]; simpl; [reflexivity|].
  now destruct (f y).
Qed.

Lemma field_from_cons (prefix default line : pystr) (lines : list pystr) :
  field_from prefix default (line :: lines) =
  field_from prefix
    (if startswith line prefix then strip (after_first COLON line)
     else default) lines.
Proof.
  unfold field_from, last_with_prefix. simpl rev. rewrite find_snoc.
  destruct (List.find _ (rev lines)); [reflexivity|].
  now destruct (startswith line prefix).
Qed.

Lemma field_value_from (prefix : pystr) (lines : list pystr) :
  field_value prefix lines = field_from prefix (EMPTY) lines.
Proof. reflexivity. Qed.

Lemma field_value_absent (prefix : pystr) (lines : list pystr) :
  (forall line, In line lines -> startswith line prefix = false) ->
  field_value prefix lines = EMPTY.
Proof.
  intros H. unfold field_value, last_with_prefix.
  destruct (List.find _ (rev lines)) as [line|] eqn:F; [|reflexivity].
  apply find_some in F as [Hin Hp]. apply in_rev in Hin.
  rewrite (H _ Hin) in Hp. discriminate.
Qed.

Lemma field_value_last (prefix line : pystr) (before after : list pystr) :
  startswith line prefix = true ->
  (forall l, In l after -> startswith l prefix = false) ->
  field_value prefix (before ++ line :: after) =
  strip (after_first COLON line).
Proof.
  intros Hl Hafter. unfold field_value, last_with_prefix.
  rewrite rev_app_distr. simpl rev. rewrite <- app_assoc. simpl.
  assert (F : List.find (fun l => startswith l prefix) (rev after) = None).
  { destruct (List.find _ (rev after)) as [l|] eqn:F; [|reflexivity].
    apply find_some in F as [Hin Hp]. apply in_rev in Hin.
    rewrite (Hafter _ Hin) in Hp. discriminate. }
  induction (rev after) as [|a l IH]; simpl in *.
  - now rewrite Hl.
  - destruct (startswith a prefix); [discriminate|]. now apply IH.
Qed.

(** Two prefixes that differ in their first character exclude each other. *)
Lemma startswith_head (s p : pystr) (c : N) :
  startswith s (c :: p) = true -> hd_error s = Some c.
Proof.
  destruct s as [|b s]; simpl; [discriminate|].
  intros H. apply andb_true_iff in H as [H _].
  apply N.eqb_eq in H. now subst.
Qed.

Lemma startswith_exclusive (s p q : pystr) (c d : N) :
  c <> d -> startswith s (c :: p) = true -> startswith s (d :: q) = false.
Proof.
  intros Hcd Hp. destruct (startswith s (d :: q)) eqn:Hq; [|reflexivity].
  apply startswith_head in Hp, Hq. congruence.
Qed.

(** ** [extract_review_info] *)

Lemma review_line_eq (product review_text line : pystr) :
  Reviews.review_line (product, review_text) line =
  Ok (if startswith line (lit "Product:")
      then strip (after_first COLON line) else product,
      if startswith line (lit "Review:")
      then strip (after_first COLON line) else review_text).
Proof.
  unfold Reviews.review_line.
  destruct (startswith line (lit "Product:")) eqn:P.
  - rewrite split_colon_1_ok
      by (apply (startswith_In _ (lit "Product:") COLON); [vm_compute; tauto|exact P]).
    cbn [rbind].
    assert (R : startswith line (lit "Review:") = false)
      by (apply (startswith_exclusive line (lit "roduct:") (lit "eview:")
                                       80%N 82%N);
          [discriminate|exact P]).
    now rewrite R.
  - destruct (startswith line (lit "Review:")) eqn:R; [|reflexivity].
    rewrite split_colon_1_ok
      by (apply (startswith_In _ (lit "Review:") COLON); [vm_compute; tauto|exact R]).
    reflexivity.
Qed.

Lemma review_lines_eq (lines : list pystr) (product review_text : pystr) :
  rfor Reviews.review_line (product, review_text) lines =
  Ok (field_from (lit "Product:") product lines,
      field_from (lit "Review:") review_text lines).
Proof.
  revert product review_text.
  induction lines as [|line lines IH]; intros product review_text.
  - reflexivity.
  - cbn [rfor]. rewrite review_line_eq. cbn [rbind].
    rewrite IH, !field_from_cons. reflexivity.
Qed.

(** ** [extract_email_info] *)

Lemma email_line_eq (sender receiver body line : pystr) :
  Emails.email_line (sender, receiver, body) line =
  Ok (if startswith line (lit "From:")
      then strip (after_first COLON line) else sender,
      if startswith line (lit "To:")
      then strip (after_first COLON line) else receiver,
      if is_body_line line then body ++ strip line ++ lit " " else body).
Proof.
  unfold Emails.email_line, is_body_line, startswith_any.
  cbn [existsb].
  destruct (startswith line (lit "From:")) eqn:F.
  - rewrite split_colon_1_ok
      by (apply (startswith_In _ (lit "From:") COLON); [vm_compute; tauto|exact F]).
    assert (T : startswith line (lit "To:") = false)
      by (apply (startswith_exclusive line (lit "rom:") (lit "o:") 70%N 84%N);
          [discriminate|exact F]).
    rewrite T. cbn [rbind orb negb]. now rewrite orb_true_r.
  - destruct (startswith line (lit "To:")) eqn:T.
    + rewrite split_colon_1_ok
        by (apply (startswith_In _ (lit "To:") COLON); [vm_compute; tauto|exact T]).
      cbn [rbind orb negb]. now rewrite orb_true_r.
    + destruct (startswith line (lit "Subject:")); reflexivity.
Qed.

Lemma email_lines_eq (lines : list pystr) (sender receiver body : pystr) :
  rfor Emails.email_line (sender, receiver, body) lines =
  Ok (field_from (lit "From:") sender lines,
      field_from (lit "To:") receiver lines,
      body ++ body_text lines).
Proof.
  revert sender receiver body.
  induction lines as [|line lines IH]; intros sender receiver body.
  - cbn. now rewrite app_nil_r.
  - cbn [rfor]. rewrite email_line_eq. cbn [rbind].
    rewrite IH, !field_from_cons. unfold body_text, body_lines.
    cbn [filter]. destruct (is_body_line line); [|reflexivity].
    cbn [map concat]. now rewrite <- !app_assoc.
Qed.

Lemma extract_email_info_eq (email : pystr) :
  exists lines,
    split_spec [LF] email lines /\
    Emails.extract_email_info email =
    Ok (field_value (lit "From:") lines, field_value (lit "To:") lines,
        strip (body_text lines)).
Proof.
  destruct (split_lines email) as (lines & Hsplit & Hspec).
  exists lines. split; [exact Hspec|].
  unfold Emails.extract_email_info. rewrite Hsplit. cbn [rbind].
  rewrite email_lines_eq. reflexivity.
Qed.

Lemma extract_review_info_eq (review : pystr) :
  exists lines,
    split_spec [LF] review lines /\
    Reviews.extract_review_info review =
    Ok (field_value (lit "Product:") lines, field_value (lit "Review:") lines).
Proof.
  destruct (split_lines review) as (lines & Hsplit & Hspec).
  exists lines. split; [exact Hspec|].
  unfold Reviews.extract_review_info. rewrite Hsplit. cbn [rbind].
  apply review_lines_eq.
Qed.

(** * Runs: facts *)

Lemma history_app (tr ev : trace) : history (tr ++ ev) = history tr ++ history ev.
Proof. apply flat_map_app. Qed.

Section Loop.

Variable w : world.
Variable body : list row -> pystr -> M (list row).
Variable step : pystr -> row -> list event -> Prop.

Hypothesis body_run : forall data rec tr,
  exists ev,
    snd (body data rec tr) = tr ++ ev /\
    match fst (body data rec tr) with
    | Ok data' => exists r, data' = data ++ [r] /\ step rec r ev
    | Raise e => e = RemoteError /\ aborted w ev
    end.

Lemma mfor_run (recs : list pystr) (data : list row) (tr : trace) :
  exists ev,
    snd (mfor body data recs tr) = tr ++ ev /\
    match fst (mfor body data recs tr) with
    | Ok data' => exists rows, data' = data ++ rows /\ steps step recs rows ev
    | Raise e =>
        e = RemoteError /\
        exists done rec rest rows ev1 part,
          recs = done ++ rec :: rest /\ steps step done rows ev1 /\
          ev = ev1 ++ part /\ aborted w part
    end.
Proof.
  revert data tr. induction recs as [|rec recs IH]; intros data tr.
  - exists []. cbn. rewrite app_nil_r. split; [reflexivity|].
    exists []. rewrite app_nil_r. split; [reflexivity|constructor].
  - cbn [mfor]. unfold bind.
    destruct (body_run data rec tr) as (ev & Hsnd & Hfst).
    destruct (body data rec tr) as [[data1|e] tr1]; cbn [fst snd] in *; subst tr1.
    + destruct Hfst as (r & -> & Hstep).
      destruct (IH (data ++ [r]) (tr ++ ev)) as (evs & Hsnd' & Hfst').
      exists (ev ++ evs). split; [now rewrite Hsnd', app_assoc|].
      destruct (fst (mfor body (data ++ [r]) recs (tr ++ ev))) as [data2|e].
      * destruct Hfst' as (rows & -> & Hsteps).
        exists (r :: rows). split; [now rewrite <- app_assoc|].
        now constructor.
      * destruct Hfst' as (-> & done & rec' & rest & rows & ev1 & part
                           & -> & Hsteps & -> & Hab).
        split; [reflexivity|].
        exists (rec :: done), rec', rest, (r :: rows), (ev ++ ev1), part.
        repeat split; try assumption.
        -- now constructor.
        -- now rewrite app_assoc.
    + destruct Hfst as (-> & Hab).
      exists ev. split; [reflexivity|]. split; [reflexivity|].
      exists [], rec, recs, [], [], ev.
      repeat split; try assumption. constructor.
Qed.

End Loop.

Lemma aborted_intro (w : world) (sent : list event) (m : pystr)
      (h : list (pystr * pystr)) :
  forallb is_answered_send sent = true -> remote w h m = None ->
  aborted w (sent ++ [Send m None]).
Proof. intros Hs Hr. now exists sent, m, h. Qed.

Lemma process_review_run (w : world) (data : list row) (review : pystr)
      (tr : trace) :
  exists ev,
    snd (Reviews.process_review w data review tr) = tr ++ ev /\
    match fst (Reviews.process_review w data review tr) with
    | Ok data' => exists r, data' = data ++ [r] /\ review_step review r ev
    | Raise e => e = RemoteError /\ aborted w ev
    end.
Proof.
  destruct (extract_review_info_eq review) as (lines & _ & Hx).
  unfold Reviews.process_review, Reviews.guess_product,
    Reviews.analyze_sentiment, bind, lift, ret, sleep, send_message.
  rewrite Hx.
  set (product := field_value (lit "Product:") lines).
  set (text := field_value (lit "Review:") lines).
  destruct (remote w (history tr) (Reviews.guess_prompt ++ text))
    as [g|] eqn:G.
  2:{ exists [Send (Reviews.guess_prompt ++ text) None].
      cbn [fst snd]. split; [reflexivity|]. split; [reflexivity|].
      now apply (aborted_intro w [] _ (history tr)). }
  match goal with
  | |- context [remote w ?h (Reviews.classify_prompt ++ text)] =>
      destruct (remote w h (Reviews.classify_prompt ++ text)) as [s|] eqn:S
  end.
  2:{ eexists [_; _]. cbn [fst snd]. rewrite <- app_assoc.
      split; [reflexivity|]. split; [reflexivity|].
      eapply (aborted_intro w [_]); [reflexivity|exact S]. }
  match goal with
  | |- context [remote w ?h (Reviews.reply_prompt ++ ?x)] =>
      destruct (remote w h (Reviews.reply_prompt ++ x)) as [r|] eqn:R
  end.
  2:{ eexists [_; _; _]. cbn [fst snd]. rewrite <- !app_assoc.
      split; [reflexivity|]. split; [reflexivity|].
      eapply (aborted_intro w [_; _]); [reflexivity|exact R]. }
  eexists [_; _; _; _]. cbn [fst snd]. rewrite <- !app_assoc.
  split; [reflexivity|]. eexists. split; [reflexivity|].
  now apply (review_step_intro review _ _ g s r Hx).
Qed.

Lemma process_email_run (w : world) (data : list row) (email : pystr)
      (tr : trace) :
  exists ev,
    snd (Emails.process_email w data email tr) = tr ++ ev /\
    match fst (Emails.process_email w data email tr) with
    | Ok data' => exists r, data' = data ++ [r] /\ email_step email r ev
    | Raise e => e = RemoteError /\ aborted w ev
    end.
Proof.
  destruct (extract_email_info_eq email) as (lines & _ & Hx).
  unfold Emails.process_email, Emails.summarize_email,
    Emails.translate_email, bind, lift, ret, send_message.
  rewrite Hx.
  set (body := strip (body_text lines)).
  destruct (remote w (history tr) (Emails.summarize_prompt ++ body))
    as [en|] eqn:S.
  2:{ exists [Send (Emails.summarize_prompt ++ body) None].
      cbn [fst snd]. split; [reflexivity|]. split; [reflexivity|].
      now apply (aborted_intro w [] _ (history tr)). }
  match goal with
  | |- context [remote w ?h (Emails.translate_prompt ++ en)] =>
      destruct (remote w h (Emails.translate_prompt ++ en)) as [de|] eqn:T
  end.
  2:{ eexists [_; _]. cbn [fst snd]. rewrite <- app_assoc.
      split; [reflexivity|]. split; [reflexivity|].
      eapply (aborted_intro w [_]); [reflexivity|exact T]. }
  eexists [_; _]. cbn [fst snd]. rewrite <- !app_assoc.
  split; [reflexivity|]. eexists. split; [reflexivity|].
  now apply (email_step_intro email _ _ _ en de Hx).
Qed.

Lemma read_reviews_eq (w : world) (file_path delimiter : pystr) (tr : trace) :
  Reviews.read_reviews w file_path delimiter tr =
  (read_result w file_path delimiter, tr).
Proof.
  unfold Reviews.read_reviews, read_result, read_file, bind, lift, ret, raise.
  destruct (file_content w file_path) as [content|]; [|reflexivity].
  destruct delimiter; [reflexivity|].
  cbn [split]. now rewrite map_strip_filter.
Qed.

Lemma read_emails_eq (w : world) (file_path delimiter : pystr) (tr : trace) :
  Emails.read_emails w file_path delimiter tr =
  (read_result w file_path delimiter, tr).
Proof.
  unfold Emails.read_emails, read_result, read_file, bind, lift, ret, raise.
  destruct (file_content w file_path) as [content|]; [|reflexivity].
  destruct delimiter; [reflexivity|].
  cbn [split]. now rewrite map_strip_filter.
Qed.

Section Pipeline.

Variable w : world.
Variable read : pystr -> pystr -> M (list pystr).
Variable body : list row -> pystr -> M (list row).
Variable step : pystr -> row -> list event -> Prop.
Variable hdr : row.

Hypothesis read_eq : forall file_path delimiter tr,
  read file_path delimiter tr = (read_result w file_path delimiter, tr).

Hypothesis body_run : forall data rec tr,
  exists ev,
    snd (body data rec tr) = tr ++ ev /\
    match fst (body data rec tr) with
    | Ok data' => exists r, data' = data ++ [r] /\ step rec r ev
    | Raise e => e = RemoteError /\ aborted w ev
    end.

Lemma pipeline_outcome (file_path csv_file delimiter : pystr) (tr : trace) :
  exists r ev,
    (recs <- read file_path delimiter ;;
     data <- mfor body [] recs ;;
     write_csv w csv_file (hdr :: data))%M tr = (r, tr ++ ev) /\
    outcome step w hdr file_path csv_file delimiter r ev.
Proof.
  unfold bind at 1. rewrite read_eq. unfold read_result.
  destruct (file_content w file_path) as [content|] eqn:Hfile.
  2:{ exists (Raise FileNotFoundError), []. rewrite app_nil_r.
      split; [reflexivity|]. now constructor. }
  destruct delimiter as [|c d] eqn:Hd.
  { exists (Raise ValueError), []. rewrite app_nil_r.
    split; [reflexivity|]. now apply run_empty_delimiter with content. }
  rewrite <- Hd. assert (Hne : delimiter <> []) by (subst; discriminate).
  clear Hd. unfold bind.
  destruct (mfor_run w body step body_run (segments content delimiter) [] tr)
    as (ev & Hsnd & Hfst).
  destruct (mfor body [] (segments content delimiter) tr) as [[data|e] tr1];
    cbn [fst snd] in *; subst tr1.
  - destruct Hfst as (rows & Hdata & Hsteps). simpl in Hdata. subst data.
    unfold write_csv. destruct (can_write w csv_file) eqn:Hw.
    + exists (Ok tt), (ev ++ [WriteCsv csv_file (hdr :: rows)]).
      rewrite app_assoc. split; [reflexivity|].
      now apply run_completed with content.
    + exists (Raise OSError), ev. split; [reflexivity|].
      now apply run_unwritable with content rows.
  - destruct Hfst as (-> & done & rec & rest & rows & ev1 & part
                      & Hsegs & Hsteps & -> & Hab).
    exists (Raise RemoteError), (ev1 ++ part). split; [reflexivity|].
    now apply run_aborted with content done rec rest rows.
Qed.

End Pipeline.

Lemma process_reviews_outcome (w : world) (file_path csv_file delimiter : pystr)
      (tr : trace) :
  exists r ev,
    Reviews.process_reviews w file_path csv_file delimiter tr = (r, tr ++ ev) /\
    outcome review_step w Reviews.header file_path csv_file delimiter r ev.
Proof.
  apply (pipeline_outcome w (Reviews.read_reviews w) (Reviews.process_review w)
           review_step Reviews.header
           (read_reviews_eq w) (process_review_run w)).
Qed.

Lemma process_emails_outcome (w : world) (file_path csv_file delimiter : pystr)
      (tr : trace) :
  exists r ev,
    Emails.process_emails w file_path csv_file delimiter tr = (r, tr ++ ev) /\
    outcome email_step w Emails.header file_path csv_file delimiter r ev.
Proof.
  apply (pipeline_outcome w (Emails.read_emails w) (Emails.process_email w)
           email_step Emails.header
           (read_emails_eq w) (process_email_run w)).
Qed.

(** ** What the steps of a run contain *)

Lemma steps_Forall2 (step : pystr -> row -> list event -> Prop)
      (recs : list pystr) (rows : list row) (ev : list event) :
  steps step recs rows ev ->
  Forall2 (fun rec r => exists e, step rec r e) recs rows.
Proof.
  induction 1 as [|rec recs r rows e evs Hstep _ IH]; constructor; eauto.
Qed.

Lemma steps_length (step : pystr -> row -> list event -> Prop)
      (recs : list pystr) (rows : list row) (ev : list event) :
  steps step recs rows ev -> length rows = length recs.
Proof.
  intros H. apply steps_Forall2 in H. symmetry.
  now apply Forall2_length in H.
Qed.

Lemma steps_events (step : pystr -> row -> list event -> Prop)
      (f : event -> bool) (recs : list pystr) (rows : list row)
      (ev : list event) :
  (forall rec r e, step rec r e -> existsb f e = false) ->
  steps step recs rows ev -> existsb f ev = false.
Proof.
  intros Hf. induction 1 as [|rec recs r rows e evs Hstep _ IH];
    [reflexivity|].
  rewrite existsb_app, IH, (Hf _ _ _ Hstep). reflexivity.
Qed.

Lemma review_step_no_write rec r e :
  review_step rec r e -> existsb is_write e = false.
Proof. now destruct 1. Qed.

Lemma review_step_no_failure rec r e :
  review_step rec r e -> existsb is_failed_send e = false.
Proof. now destruct 1. Qed.

Lemma email_step_no_write rec r e :
  email_step rec r e -> existsb is_write e = false.
Proof. now destruct 1. Qed.

Lemma email_step_no_failure rec r e :
  email_step rec r e -> existsb is_failed_send e = false.
Proof. now destruct 1. Qed.

Lemma email_step_no_sleep rec r e :
  email_step rec r e -> existsb is_sleep e = false.
Proof. now destruct 1. Qed.

Lemma aborted_no_write (w : world) (part : list event) :
  aborted w part -> existsb is_write part = false.
Proof.
  intros (sent & m & h & -> & Hs & _). rewrite existsb_app. simpl.
  rewrite orb_false_r. induction sent as [|e sent IH]; [reflexivity|].
  simpl in *. apply andb_true_iff in Hs as [He Hs].
  rewrite (IH Hs). now destruct e as [? []| |].
Qed.

Lemma aborted_no_sleep (w : world) (part : list event) :
  aborted w part -> existsb is_sleep part = false.
Proof.
  intros (sent & m & h & -> & Hs & _). rewrite existsb_app. simpl.
  rewrite orb_false_r. induction sent as [|e sent IH]; [reflexivity|].
  simpl in *. apply andb_true_iff in Hs as [He Hs].
  rewrite (IH Hs). now destruct e as [? []| |].
Qed.

Lemma pauses_app (a b : list event) : pauses (a ++ b) = pauses a + pauses b.
Proof. unfold pauses. now rewrite filter_app, length_app. Qed.

Lemma pauses_none (ev : list event) :
  existsb is_sleep ev = false -> pauses ev = 0.
Proof.
  unfold pauses. induction ev as [|e ev IH]; [reflexivity|]. simpl.
  destruct (is_sleep e); [discriminate|]. exact IH.
Qed.

Lemma review_steps_kinds (recs : list pystr) (rows : list row)
      (ev : list event) :
  steps review_step recs rows ev ->
  map kind_of ev =
  concat (repeat [KSend; KSend; KSend; KSleep 2] (length recs)) /\
  pauses ev = length recs.
Proof.
  induction 1 as [|rec recs r rows e evs Hstep _ [IHk IHp]].
  - now split.
  - rewrite map_app, pauses_app, IHk, IHp. destruct Hstep. now split.
Qed.

(** * The properties *)

Lemma pystr_eqb_eq (a b : pystr) : pystr_eqb a b = true <-> a = b.
Proof.
  unfold pystr_eqb. destruct (list_eq_dec N.eq_dec a b); split;
    congruence.
Qed.

Lemma allowed_iff (s : pystr) :
  existsb (pystr_eqb s) Reviews.allowed_sentiments = true <->
  In s Reviews.allowed_sentiments.
Proof.
  rewrite existsb_exists. split.
  - intros (x & Hin & Heq). apply pystr_eqb_eq in Heq. now subst.
  - intros Hin. exists s. split; [exact Hin|]. now apply pystr_eqb_eq.
Qed.

(** C1. Sentiment normalization maps every string into the three labels:
    the result is one of "Positive", "Negative", "Neutral"; it is the
    input exactly when the input is one of the three; otherwise it is
    "Neutral". *)
Theorem normalize_sentiment_total (s : pystr) :
  In (Reviews.normalize_sentiment s)
     [lit "Positive"; lit "Negative"; lit "Neutral"] /\
  (Reviews.normalize_sentiment s = s <->
   In s [lit "Positive"; lit "Negative"; lit "Neutral"]) /\
  (~ In s [lit "Positive"; lit "Negative"; lit "Neutral"] ->
   Reviews.normalize_sentiment s = lit "Neutral").
Proof.
  change [lit "Positive"; lit "Negative"; lit "Neutral"]
    with Reviews.allowed_sentiments.
  unfold Reviews.normalize_sentiment.
  destruct (existsb (pystr_eqb s) Reviews.allowed_sentiments) eqn:E;
    cbn [negb].
  - apply allowed_iff in E. repeat split; auto. intros H. contradiction.
  - assert (Hn : ~ In s Reviews.allowed_sentiments).
    { intros H. apply allowed_iff in H. congruence. }
    repeat split.
    + right. right. now left.
    + intros H. exfalso. apply Hn. rewrite <- H. right. right. now left.
    + intros H. contradiction.
Qed.

(** Scenario 2: the answer "Pretty good!" becomes "Neutral". *)
Lemma normalize_sentiment_total_witness :
  Reviews.normalize_sentiment (lit "Pretty good!") = lit "Neutral".
Proof.
  apply (normalize_sentiment_total (lit "Pretty good!")).
  intros [H|[H|[H|[]]]]; discriminate H.
Defined.

(** Scenario 3: the answer "Negative" is kept. *)
Example normalize_negative :
  Reviews.normalize_sentiment (lit "Negative") = lit "Negative".
Proof. reflexivity. Qed.

(** The sentiment [analyze_sentiment] returns is the normalized, trimmed
    answer to the classification message. *)
Lemma analyze_sentiment_normalizes (w : world) (review_text : pystr)
      (tr tr' : trace) (sentiment reply : pystr) :
  Reviews.analyze_sentiment w review_text tr = (Ok (sentiment, reply), tr') ->
  exists a,
    remote w (history tr) (Reviews.classify_prompt ++ review_text) = Some a /\
    sentiment = Reviews.normalize_sentiment (strip a).
Proof.
  unfold Reviews.analyze_sentiment, bind, ret, send_message.
  destruct (remote w (history tr) _) as [a|]; [|discriminate].
  match goal with
  | |- context [remote w ?h ?m] => destruct (remote w h m); [|discriminate]
  end.
  intros [= <- _ _]. now exists a.
Qed.

(** C3. Review-field extraction never raises; over the lines of the
    record, the product is what follows the first colon of the last line
    starting with "Product:", trimmed, and the review text likewise for
    "Review:"; other lines do not count, and a field without a line is the
    empty string. *)
Theorem extract_review_info_fields (review : pystr) :
  exists lines,
    split_spec [LF] review lines /\
    Reviews.extract_review_info review =
      Ok (field_value (lit "Product:") lines,
          field_value (lit "Review:") lines) /\
    (forall prefix before line after,
        lines = before ++ line :: after ->
        startswith line prefix = true ->
        (forall l, In l after -> startswith l prefix = false) ->
        field_value prefix lines = strip (after_first COLON line)) /\
    (forall prefix,
        (forall l, In l lines -> startswith l prefix = false) ->
        field_value prefix lines = EMPTY).
Proof.
  destruct (extract_review_info_eq review) as (lines & Hspec & Hx).
  exists lines. repeat split; try assumption.
  - intros prefix before line after -> Hl Hafter.
    now apply field_value_last.
  - intros prefix. apply field_value_absent.
Qed.

(** Scenario 1: the record "Product: Shoes", "Review: Great fit". *)
Lemma extract_review_info_fields_witness :
  Reviews.extract_review_info shoes_review = Ok (lit "Shoes", lit "Great fit").
Proof.
  destruct (extract_review_info_fields shoes_review)
    as (lines & Hspec & Hx & _).
  assert (Hlines : lines = [lit "Product: Shoes"; lit "Review: Great fit"]).
  { apply (split_spec_fun _ _ _ _ Hspec).
    apply (split_from_spec (length shoes_review) [LF] shoes_review);
      [discriminate|lia]. }
  rewrite Hx, Hlines. reflexivity.
Defined.

Lemma strip_spaces (s : pystr) : forallb isspace s = true -> strip s = [].
Proof.
  intros H. unfold strip.
  rewrite <- (app_nil_r s), (lstrip_spaces s [] H). reflexivity.
Qed.

Lemma subject_not_body (line : pystr) :
  startswith line (lit "Subject:") = true -> is_body_line line = false.
Proof.
  intros H. unfold is_body_line, startswith_any. cbn [existsb].
  now rewrite H.
Qed.

(** C4, amended. Email-field extraction never raises; over the lines of
    the record, the sender is what follows the first colon of the last
    line starting with "From:", trimmed, the receiver likewise for "To:",
    both empty without such a line; the body is made of the lines that
    start with none of "Subject:", "From:", "To:", in their order, each
    trimmed and followed by a space, the whole trimmed; a "Subject:" line
    is never part of the body. *)
Theorem extract_email_info_fields (email : pystr) :
  exists lines,
    split_spec [LF] email lines /\
    Emails.extract_email_info email =
      Ok (field_value (lit "From:") lines,
          field_value (lit "To:") lines,
          strip (body_text lines)) /\
    body_lines lines =
      filter (fun line =>
                negb (startswith line (lit "Subject:")
                      || startswith line (lit "From:")
                      || startswith line (lit "To:"))) lines /\
    (forall line, startswith line (lit "Subject:") = true ->
                  ~ In line (body_lines lines)) /\
    (forall prefix,
        (forall l, In l lines -> startswith l prefix = false) ->
        field_value prefix lines = EMPTY).
Proof.
  destruct (extract_email_info_eq email) as (lines & Hspec & Hx).
  exists lines. repeat split; try assumption.
  - unfold body_lines. apply filter_ext. intros line.
    unfold is_body_line, startswith_any. cbn [existsb].
    now rewrite orb_false_r, orb_assoc.
  - intros line Hs Hin. apply filter_In in Hin as [_ Hb].
    rewrite (subject_not_body _ Hs) in Hb. discriminate.
  - intros prefix. apply field_value_absent.
Qed.

(** Scenario 4: the email of a\@x.com to b\@x.com. *)
Lemma extract_email_info_fields_witness :
  Emails.extract_email_info order_email =
  Ok (lit "a@x.com", lit "b@x.com", lit "Thanks for the order.").
Proof.
  destruct (extract_email_info_fields order_email)
    as (lines & Hspec & Hx & _).
  assert (Hlines : lines = [lit "From: a@x.com"; lit "To: b@x.com";
                            lit "Subject: Hi"; lit "Thanks for the order."]).
  { apply (split_spec_fun _ _ _ _ Hspec).
    apply (split_from_spec (length order_email) [LF] order_email);
      [discriminate|lia]. }
  rewrite Hx, Hlines. reflexivity.
Defined.

(** C4 as worded fails: with the lines "a " and "b" the body is "a b",
    while the lines as they stand, each followed by a space, trim to
    "a  b". *)
Lemma extract_email_info_untrimmed_counterexample :
  split_spec [LF] (text [lit "a "; lit "b"]) [lit "a "; lit "b"] /\
  Emails.extract_email_info (text [lit "a "; lit "b"]) =
    Ok (EMPTY, EMPTY, lit "a b") /\
  strip (body_text_untrimmed [lit "a "; lit "b"]) = lit "a  b" /\
  lit "a b" <> strip (body_text_untrimmed [lit "a "; lit "b"]).
Proof.
  split; [|split; [reflexivity|split; [reflexivity|discriminate]]].
  apply (split_from_spec 4 [LF] (text [lit "a "; lit "b"]));
    [discriminate|apply Nat.le_refl].
Qed.

(** C10. Every body line is trimmed on its own before it joins the body:
    the body is the trim of strip(l1) + " " + ... + strip(lk) + " " over
    the body lines l1..lk; what each line contributes neither starts nor
    ends with white space before its separator, and a blank line
    contributes the separator alone. *)
Theorem email_body_lines_trimmed (email : pystr) :
  exists lines sender receiver,
    split_spec [LF] email lines /\
    Emails.extract_email_info email =
      Ok (sender, receiver,
          strip (concat (map (fun l => strip l ++ lit " ")
                             (body_lines lines)))) /\
    Forall (fun l => clean (strip l)) (body_lines lines) /\
    Forall (fun l => forallb isspace l = true -> strip l ++ lit " " = lit " ")
           (body_lines lines).
Proof.
  destruct (extract_email_info_eq email) as (lines & Hspec & Hx).
  exists lines, (field_value (lit "From:") lines),
    (field_value (lit "To:") lines).
  repeat split; try assumption.
  - apply Forall_forall. intros l _. apply strip_clean.
  - apply Forall_forall. intros l _ Hl. now rewrite strip_spaces.
Qed.

(** A blank line between two padded lines leaves two separator spaces. *)
Example email_body_blank_line :
  Emails.extract_email_info
    (text [lit "  Hello  "; lit "   "; lit "Subject: x"; lit " world "]) =
  Ok (EMPTY, EMPTY, lit "Hello  world").
Proof. reflexivity. Qed.

(** ** The record readers *)

Lemma forallb_rev {A} (f : A -> bool) (l : list A) :
  forallb f l = true -> forallb f (rev l) = true.
Proof.
  rewrite !forallb_forall. intros H x Hx. apply H. now apply in_rev.
Qed.

(** Being trimmed determines the text: it is what [strip] returns. *)
Lemma trimmed_of_fun (s t : pystr) : trimmed_of s t -> t = strip s.
Proof.
  intros (l & r & -> & Hl & Hr & Hh & Hlast). unfold strip.
  rewrite (lstrip_spaces l (t ++ r) Hl).
  destruct t as [|c t].
  - simpl. rewrite <- (app_nil_r r), (lstrip_spaces r [] Hr). reflexivity.
  - rewrite lstrip_id by exact Hh. unfold rstrip.
    rewrite rev_app_distr, (lstrip_spaces (rev r) _ (forallb_rev _ _ Hr)).
    rewrite lstrip_id by exact Hlast. symmetry. apply rev_involutive.
Qed.

Lemma Forall2_trimmed (pieces trimmed : list pystr) :
  Forall2 trimmed_of pieces trimmed -> trimmed = map strip pieces.
Proof.
  induction 1 as [|p t ps ts Hpt _ IH]; [reflexivity|].
  simpl. f_equal; [now apply trimmed_of_fun|exact IH].
Qed.

Lemma segments_spec (content delimiter : pystr) (pieces trimmed : list pystr) :
  delimiter <> [] ->
  split_spec delimiter content pieces ->
  Forall2 trimmed_of pieces trimmed ->
  segments content delimiter = filter truthy trimmed.
Proof.
  intros Hd Hp Ht. unfold segments.
  rewrite (split_spec_fun _ _ _ _
             (split_from_spec (length content) delimiter content Hd (le_n _))
             Hp).
  now rewrite (Forall2_trimmed _ _ Ht).
Qed.

Lemma read_result_ok (w : world) (file_path delimiter content : pystr) :
  file_content w file_path = Some content -> delimiter <> [] ->
  read_result w file_path delimiter = Ok (segments content delimiter).
Proof.
  intros Hf Hd. unfold read_result. rewrite Hf.
  destruct delimiter; [congruence|reflexivity].
Qed.

Lemma read_result_inv (w : world) (file_path delimiter : pystr)
      (recs : list pystr) :
  read_result w file_path delimiter = Ok recs ->
  exists content,
    file_content w file_path = Some content /\ delimiter <> [] /\
    recs = segments content delimiter.
Proof.
  unfold read_result.
  destruct (file_content w file_path) as [content|]; [|discriminate].
  destruct delimiter; [discriminate|]. intros [= <-].
  exists content. repeat split. discriminate.
Qed.

(** C5, amended. For every file content and every non-empty delimiter,
    both record readers return, in order, the pieces of the content
    between the occurrences of the delimiter, each trimmed, without the
    pieces that are empty once trimmed; such pieces exist, and empty or
    blank ones are dropped without an error. *)
Theorem read_records (w : world) (file_path delimiter content : pystr)
        (tr : trace) :
  file_content w file_path = Some content ->
  delimiter <> [] ->
  (exists pieces trimmed,
      split_spec delimiter content pieces /\
      Forall2 trimmed_of pieces trimmed) /\
  (forall pieces trimmed,
      split_spec delimiter content pieces ->
      Forall2 trimmed_of pieces trimmed ->
      Reviews.read_reviews w file_path delimiter tr =
        (Ok (filter truthy trimmed), tr) /\
      Emails.read_emails w file_path delimiter tr =
        (Ok (filter truthy trimmed), tr)).
Proof.
  intros Hf Hd. split.
  - exists (split_from (length content) delimiter None content),
      (map strip (split_from (length content) delimiter None content)).
    split; [now apply split_from_spec|].
    induction (split_from _ _ _ _) as [|p ps IH]; constructor;
      [apply strip_trimmed|exact IH].
  - intros pieces trimmed Hp Ht.
    rewrite read_reviews_eq, read_emails_eq, (read_result_ok _ _ _ _ Hf Hd).
    now rewrite (segments_spec _ _ _ _ Hd Hp Ht).
Qed.

(** A file with one review followed by the delimiter: one record, the
    empty piece after the delimiter being dropped. *)
Lemma read_records_witness :
  Reviews.read_reviews
    (one_file_world (lit "reviews.txt")
       (shoes_review ++ Reviews.default_delimiter) (answers (lit "ok")))
    (lit "reviews.txt") Reviews.default_delimiter [] =
  (Ok [shoes_review], []).
Proof.
  set (content := shoes_review ++ Reviews.default_delimiter).
  set (w := one_file_world (lit "reviews.txt") content (answers (lit "ok"))).
  assert (Hf : file_content w (lit "reviews.txt") = Some content)
    by reflexivity.
  assert (Hd : Reviews.default_delimiter <> []) by discriminate.
  destruct (read_records w (lit "reviews.txt") Reviews.default_delimiter
                          content [] Hf Hd) as [_ H].
  apply (H [shoes_review; []] [shoes_review; []]).
  - apply (split_from_spec (length content) Reviews.default_delimiter content);
      [exact Hd|apply Nat.le_refl].
  - repeat constructor;
      [exists [], [] | exists [], []]; repeat split; reflexivity.
Defined.

(** C5 as worded fails for the empty delimiter: the readers raise
    [ValueError] instead of returning records. *)
Lemma read_records_empty_delimiter_counterexample :
  Reviews.read_reviews
    (one_file_world (lit "reviews.txt") shoes_review (answers (lit "ok")))
    (lit "reviews.txt") (EMPTY) [] = (Raise ValueError, []) /\
  Emails.read_emails
    (one_file_world (lit "email.txt") order_email (answers (lit "ok")))
    (lit "email.txt") (EMPTY) [] = (Raise ValueError, []).
Proof. split; reflexivity. Qed.

Lemma occurs_infix (sep s l r : pystr) :
  occurs sep s -> occurs sep (l ++ s ++ r).
Proof.
  intros (pre & post & ->). exists (l ++ pre), (post ++ r).
  now rewrite <- !app_assoc.
Qed.

Lemma segments_resplit (content delimiter s : pystr) :
  delimiter <> [] -> In s (segments content delimiter) ->
  segments s delimiter = [s].
Proof.
  intros Hd Hin. unfold segments in Hin.
  apply filter_In in Hin as [Hin Hs].
  apply in_map_iff in Hin as (p & <- & Hp).
  assert (Hno : ~ occurs delimiter (strip p)).
  { intros Hocc.
    apply (split_spec_pieces _ _ _ Hd
             (split_from_spec (length content) delimiter content Hd (le_n _))
             _ Hp).
    destruct (strip_infix p) as (l & r & Heq). rewrite Heq.
    now apply occurs_infix. }
  unfold segments. rewrite (split_from_not_occurs _ _ _ _ Hno).
  simpl. now rewrite strip_idempotent, Hs.
Qed.

(** C6. A record the reader produced (split on the delimiter, trimmed,
    non-empty), read again as a file content with the same delimiter,
    gives that record alone. *)
Theorem resplit_segment (w : world) (file_path delimiter : pystr)
        (tr tr' : trace) (recs : list pystr) (s : pystr) :
  Reviews.read_reviews w file_path delimiter tr = (Ok recs, tr') ->
  In s recs ->
  forall (w2 : world) (path2 : pystr) (tr2 : trace),
    file_content w2 path2 = Some s ->
    Reviews.read_reviews w2 path2 delimiter tr2 = (Ok [s], tr2) /\
    Emails.read_emails w2 path2 delimiter tr2 = (Ok [s], tr2).
Proof.
  rewrite read_reviews_eq. intros [= Hr _] Hin w2 path2 tr2 Hf2.
  apply read_result_inv in Hr as (content & _ & Hd & ->).
  rewrite read_reviews_eq, read_emails_eq, (read_result_ok _ _ _ _ Hf2 Hd).
  now rewrite (segments_resplit _ _ _ Hd Hin).
Qed.

Example read_one_review :
  Reviews.read_reviews
    (one_file_world (lit "reviews.txt")
       (shoes_review ++ Reviews.default_delimiter) (answers (lit "ok")))
    (lit "reviews.txt") Reviews.default_delimiter [] =
  (Ok [shoes_review], []).
Proof. reflexivity. Qed.

Lemma resplit_segment_witness :
  Reviews.read_reviews
    (one_file_world (lit "again.txt") shoes_review (answers (lit "ok")))
    (lit "again.txt") Reviews.default_delimiter [] =
  (Ok [shoes_review], []).
Proof.
  refine (proj1 (resplit_segment _ _ _ _ _ _ _ read_one_review _
                   (one_file_world (lit "again.txt") shoes_review
                                   (answers (lit "ok")))
                   (lit "again.txt") [] _)).
  - now left.
  - reflexivity.
Defined.

(** ** Whole runs *)

Lemma existsb_false_In (f : event -> bool) (ev : list event) (e : event) :
  existsb f ev = false -> f e = true -> ~ In e ev.
Proof.
  intros Hf He Hin.
  assert (H : existsb f ev = true) by (apply existsb_exists; eauto).
  congruence.
Qed.

Section Outcomes.

Variable step : pystr -> row -> list event -> Prop.
Variable w : world.
Variable hdr : row.
Variables file_path csv_file delimiter : pystr.

Hypothesis step_no_write :
  forall rec r e, step rec r e -> existsb is_write e = false.
Hypothesis step_no_failure :
  forall rec r e, step rec r e -> existsb is_failed_send e = false.

Lemma outcome_completed_inv (ev : list event) :
  outcome step w hdr file_path csv_file delimiter (Ok tt) ev ->
  exists content rows ev0,
    file_content w file_path = Some content /\ delimiter <> [] /\
    can_write w csv_file = true /\
    steps step (segments content delimiter) rows ev0 /\
    ev = ev0 ++ [WriteCsv csv_file (hdr :: rows)].
Proof.
  inversion 1; subst. now exists content, rows, ev0.
Qed.

Lemma outcome_raise_no_write (e : exn) (ev : list event) :
  outcome step w hdr file_path csv_file delimiter (Raise e) ev ->
  existsb is_write ev = false.
Proof.
  inversion 1; subst; try reflexivity;
    match goal with
    | Hs : steps _ _ _ _ |- _ =>
        pose proof (steps_events step is_write _ _ _ step_no_write Hs) as Hnw
    end.
  - rewrite existsb_app, Hnw. now rewrite (aborted_no_write w part).
  - exact Hnw.
Qed.

Lemma outcome_failed_send (r : result unit) (ev : list event) :
  outcome step w hdr file_path csv_file delimiter r ev ->
  existsb is_failed_send ev = true -> r = Raise RemoteError.
Proof.
  inversion 1; subst; try reflexivity; try discriminate;
    match goal with
    | Hs : steps _ _ _ _ |- _ =>
        pose proof (steps_events step is_failed_send _ _ _
                                 step_no_failure Hs) as Hnf
    end.
  - rewrite Hnf. discriminate.
  - rewrite existsb_app, Hnf. discriminate.
Qed.

Lemma outcome_completes (r : result unit) (ev : list event) (content : pystr) :
  file_content w file_path = Some content -> delimiter <> [] ->
  can_write w csv_file = true ->
  (forall h m, remote w h m <> None) ->
  outcome step w hdr file_path csv_file delimiter r ev -> r = Ok tt.
Proof.
  intros Hf Hd Hw Hr. inversion 1; subst; try congruence.
  match goal with
  | Ha : aborted _ _ |- _ => destruct Ha as (sent & m & h & _ & _ & Hnone)
  end.
  now apply Hr in Hnone.
Qed.

End Outcomes.

Lemma run_events {A} (run : result A * trace) (tr : trace) (r : result A)
      (tr' : trace) (r0 : result A) (ev : list event) :
  run = (r, tr') -> run = (r0, tr ++ ev) -> r = r0 /\ tr' = tr ++ ev.
Proof. intros -> [= -> ->]. now split. Qed.

(** C2. In both pipelines a run that completes writes the header followed
    by one row per record, in the order of the records, the records being
    the non-empty trimmed pieces of the file content between the
    delimiters: as many rows as records, row i made from record i, no
    rows but the header without records.  With a readable file, a
    non-empty delimiter, a writable destination and a remote model that
    answers, the run completes. *)
Theorem rows_match_segments (w : world) (file_path csv_file delimiter : pystr)
        (tr : trace) :
  (forall tr',
      Reviews.process_reviews w file_path csv_file delimiter tr = (Ok tt, tr') ->
      exists content rows ev,
        file_content w file_path = Some content /\
        tr' = tr ++ ev ++ [WriteCsv csv_file (Reviews.header :: rows)] /\
        existsb is_write ev = false /\
        length rows = length (segments content delimiter) /\
        Forall2 (fun rec r => exists e, review_step rec r e)
                (segments content delimiter) rows /\
        (segments content delimiter = [] -> rows = [])) /\
  (forall tr',
      Emails.process_emails w file_path csv_file delimiter tr = (Ok tt, tr') ->
      exists content rows ev,
        file_content w file_path = Some content /\
        tr' = tr ++ ev ++ [WriteCsv csv_file (Emails.header :: rows)] /\
        existsb is_write ev = false /\
        length rows = length (segments content delimiter) /\
        Forall2 (fun rec r => exists e, email_step rec r e)
                (segments content delimiter) rows /\
        (segments content delimiter = [] -> rows = [])) /\
  (forall content,
      file_content w file_path = Some content -> delimiter <> [] ->
      can_write w csv_file = true ->
      (forall h m, remote w h m <> None) ->
      fst (Reviews.process_reviews w file_path csv_file delimiter tr) = Ok tt /\
      fst (Emails.process_emails w file_path csv_file delimiter tr) = Ok tt).
Proof.
  split; [|split].
  - intros tr' Hrun.
    destruct (process_reviews_outcome w file_path csv_file delimiter tr)
      as (r & ev & Hrun' & Hout).
    destruct (run_events _ _ _ _ _ _ Hrun Hrun') as [<- ->].
    apply outcome_completed_inv in Hout
      as (content & rows & ev0 & Hf & _ & _ & Hsteps & ->).
    exists content, rows, ev0. repeat split; try assumption.
    + apply (steps_events _ _ _ _ _ review_step_no_write Hsteps).
    + apply (steps_length _ _ _ _ Hsteps).
    + apply (steps_Forall2 _ _ _ _ Hsteps).
    + intros Hnil. apply steps_length in Hsteps. rewrite Hnil in Hsteps.
      now destruct rows.
  - intros tr' Hrun.
    destruct (process_emails_outcome w file_path csv_file delimiter tr)
      as (r & ev & Hrun' & Hout).
    destruct (run_events _ _ _ _ _ _ Hrun Hrun') as [<- ->].
    apply outcome_completed_inv in Hout
      as (content & rows & ev0 & Hf & _ & _ & Hsteps & ->).
    exists content, rows, ev0. repeat split; try assumption.
    + apply (steps_events _ _ _ _ _ email_step_no_write Hsteps).
    + apply (steps_length _ _ _ _ Hsteps).
    + apply (steps_Forall2 _ _ _ _ Hsteps).
    + intros Hnil. apply steps_length in Hsteps. rewrite Hnil in Hsteps.
      now destruct rows.
  - intros content Hf Hd Hw Hr. split.
    + destruct (process_reviews_outcome w file_path csv_file delimiter tr)
        as (r & ev & -> & Hout).
      apply (outcome_completes _ _ _ _ _ _ _ _ _ Hf Hd Hw Hr Hout).
    + destruct (process_emails_outcome w file_path csv_file delimiter tr)
        as (r & ev & -> & Hout).
      apply (outcome_completes _ _ _ _ _ _ _ _ _ Hf Hd Hw Hr Hout).
Qed.

(** Two reviews, every call answered: two rows, in the order of the
    reviews. *)
Lemma rows_match_segments_witness :
  exists rows ev,
    snd (Reviews.process_reviews (reviews_world two_reviews (answers (lit "ok")))
           (lit "reviews.txt") (lit "out.csv") Reviews.default_delimiter []) =
      ev ++ [WriteCsv (lit "out.csv") (Reviews.header :: rows)] /\
    Forall2 (fun rec r => exists e, review_step rec r e)
            [shoes_review; hat_review] rows.
Proof.
  set (w := reviews_world two_reviews (answers (lit "ok"))).
  destruct (rows_match_segments w (lit "reviews.txt") (lit "out.csv")
              Reviews.default_delimiter []) as (Hrows & _ & Hdone).
  assert (Hf : file_content w (lit "reviews.txt") = Some two_reviews)
    by reflexivity.
  destruct (Hdone two_reviews Hf) as [Hok _];
    [discriminate|reflexivity|discriminate|].
  destruct (Hrows _ (eq_trans (surjective_pairing _)
                              (f_equal (fun r => (r, _)) Hok)))
    as (content & rows & ev & Hf' & Htr & _ & _ & Hall & _).
  rewrite Hf in Hf'. injection Hf' as <-.
  exists rows, ev. split; [exact Htr|exact Hall].
Defined.

(** Scenario 5: a file that holds the delimiter alone gives the header
    and no row. *)
Example delimiter_only_file :
  Reviews.process_reviews
    (reviews_world Reviews.default_delimiter (answers (lit "ok")))
    (lit "reviews.txt") (lit "out.csv") Reviews.default_delimiter [] =
  (Ok tt, [WriteCsv (lit "out.csv") [Reviews.header]]) /\
  Emails.process_emails
    (emails_world Emails.default_delimiter (answers (lit "ok")))
    (lit "email.txt") (lit "out.csv") Emails.default_delimiter [] =
  (Ok tt, [WriteCsv (lit "out.csv") [Emails.header]]).
Proof. split; reflexivity. Qed.

(** C7. In both pipelines, a run in which a remote call fails ends with
    the error of that call and writes no file, and a run that writes the
    file has processed every record, all calls answered, before the one
    write that ends it. *)
Theorem remote_failure_aborts (w : world)
        (file_path csv_file delimiter : pystr) (tr : trace) :
  (forall r tr',
      Reviews.process_reviews w file_path csv_file delimiter tr = (r, tr') ->
      exists ev,
        tr' = tr ++ ev /\
        ((exists m, In (Send m None) ev) ->
         r = Raise RemoteError /\ forall p rows, ~ In (WriteCsv p rows) ev) /\
        (forall p rows,
            In (WriteCsv p rows) ev ->
            r = Ok tt /\
            exists content data ev0,
              file_content w file_path = Some content /\
              steps review_step (segments content delimiter) data ev0 /\
              ev = ev0 ++ [WriteCsv csv_file (Reviews.header :: data)] /\
              existsb is_write ev0 = false /\
              existsb is_failed_send ev0 = false)) /\
  (forall r tr',
      Emails.process_emails w file_path csv_file delimiter tr = (r, tr') ->
      exists ev,
        tr' = tr ++ ev /\
        ((exists m, In (Send m None) ev) ->
         r = Raise RemoteError /\ forall p rows, ~ In (WriteCsv p rows) ev) /\
        (forall p rows,
            In (WriteCsv p rows) ev ->
            r = Ok tt /\
            exists content data ev0,
              file_content w file_path = Some content /\
              steps email_step (segments content delimiter) data ev0 /\
              ev = ev0 ++ [WriteCsv csv_file (Emails.header :: data)] /\
              existsb is_write ev0 = false /\
              existsb is_failed_send ev0 = false)).
Proof.
  split.
  - intros r tr' Hrun.
    destruct (process_reviews_outcome w file_path csv_file delimiter tr)
      as (r0 & ev & Hrun' & Hout).
    destruct (run_events _ _ _ _ _ _ Hrun Hrun') as [-> ->].
    exists ev. split; [reflexivity|]. split.
    + intros (m & Hm).
      assert (Hfail : existsb is_failed_send ev = true)
        by (apply existsb_exists; now exists (Send m None)).
      pose proof (outcome_failed_send _ _ _ _ _ _
                    review_step_no_failure _ _ Hout Hfail) as ->.
      split; [reflexivity|]. intros p rows.
      apply (existsb_false_In is_write); [|reflexivity].
      apply (outcome_raise_no_write _ _ _ _ _ _
               review_step_no_write _ _ Hout).
    + intros p rows Hin. destruct r0 as [[]|e].
      * split; [reflexivity|].
        apply outcome_completed_inv in Hout
          as (content & data & ev0 & Hf & _ & _ & Hsteps & ->).
        exists content, data, ev0. repeat split; try assumption.
        -- apply (steps_events _ _ _ _ _ review_step_no_write Hsteps).
        -- apply (steps_events _ _ _ _ _ review_step_no_failure Hsteps).
      * exfalso. revert Hin.
        apply (existsb_false_In is_write); [|reflexivity].
        apply (outcome_raise_no_write _ _ _ _ _ _
                 review_step_no_write _ _ Hout).
  - intros r tr' Hrun.
    destruct (process_emails_outcome w file_path csv_file delimiter tr)
      as (r0 & ev & Hrun' & Hout).
    destruct (run_events _ _ _ _ _ _ Hrun Hrun') as [-> ->].
    exists ev. split; [reflexivity|]. split.
    + intros (m & Hm).
      assert (Hfail : existsb is_failed_send ev = true)
        by (apply existsb_exists; now exists (Send m None)).
      pose proof (outcome_failed_send _ _ _ _ _ _
                    email_step_no_failure _ _ Hout Hfail) as ->.
      split; [reflexivity|]. intros p rows.
      apply (existsb_false_In is_write); [|reflexivity].
      apply (outcome_raise_no_write _ _ _ _ _ _
               email_step_no_write _ _ Hout).
    + intros p rows Hin. destruct r0 as [[]|e].
      * split; [reflexivity|].
        apply outcome_completed_inv in Hout
          as (content & data & ev0 & Hf & _ & _ & Hsteps & ->).
        exists content, data, ev0. repeat split; try assumption.
        -- apply (steps_events _ _ _ _ _ email_step_no_write Hsteps).
        -- apply (steps_events _ _ _ _ _ email_step_no_failure Hsteps).
      * exfalso. revert Hin.
        apply (existsb_false_In is_write); [|reflexivity].
        apply (outcome_raise_no_write _ _ _ _ _ _
                 email_step_no_write _ _ Hout).
Qed.

(** Scenario 6: five reviews, the classification call of the second one
    fails; the run ends with that error and nothing is written. *)
Lemma remote_failure_aborts_witness :
  let run :=
    Reviews.process_reviews
      (reviews_world five_reviews (fails_after 4 (lit "ok")))
      (lit "reviews.txt") (lit "out.csv") Reviews.default_delimiter [] in
  fst run = Raise RemoteError /\
  forall p rows, ~ In (WriteCsv p rows) (snd run).
Proof.
  intros run.
  destruct (remote_failure_aborts
              (reviews_world five_reviews (fails_after 4 (lit "ok")))
              (lit "reviews.txt") (lit "out.csv") Reviews.default_delimiter [])
    as [H _].
  destruct (H (fst run) (snd run) (surjective_pairing run))
    as (ev & Htr & Hfail & _).
  simpl app in Htr. rewrite Htr. apply Hfail.
  exists (Reviews.classify_prompt ++ lit "Great fit").
  rewrite <- Htr. vm_compute. do 5 right. left. reflexivity.
Defined.

Lemma email_outcome_no_sleep (w : world) (hdr : row)
      (file_path csv_file delimiter : pystr) (r : result unit)
      (ev : list event) :
  outcome email_step w hdr file_path csv_file delimiter r ev ->
  existsb is_sleep ev = false.
Proof.
  inversion 1; subst; try reflexivity;
    match goal with
    | Hs : steps _ _ _ _ |- _ =>
        pose proof (steps_events _ is_sleep _ _ _ email_step_no_sleep Hs)
          as Hns
    end.
  - rewrite existsb_app, Hns. now rewrite (aborted_no_sleep w part).
  - exact Hns.
  - rewrite existsb_app, Hns. reflexivity.
Qed.

(** C8, amended. A run of the review pipeline that completes over n
    records pauses n times: each record causes its three calls and then a
    pause of 2, the last record included, and the write follows the last
    pause.  A run of the email pipeline never pauses, however it ends. *)
Theorem pauses_per_record (w : world) (file_path csv_file delimiter : pystr)
        (tr : trace) :
  (forall tr',
      Reviews.process_reviews w file_path csv_file delimiter tr = (Ok tt, tr') ->
      exists content ev,
        file_content w file_path = Some content /\
        tr' = tr ++ ev /\
        map kind_of ev =
          concat (repeat [KSend; KSend; KSend; KSleep 2]
                         (length (segments content delimiter)))
          ++ [KWrite] /\
        pauses ev = length (segments content delimiter)) /\
  (forall r tr',
      Emails.process_emails w file_path csv_file delimiter tr = (r, tr') ->
      exists ev,
        tr' = tr ++ ev /\ pauses ev = 0 /\ forall n, ~ In (Sleep n) ev).
Proof.
  split.
  - intros tr' Hrun.
    destruct (process_reviews_outcome w file_path csv_file delimiter tr)
      as (r & ev & Hrun' & Hout).
    destruct (run_events _ _ _ _ _ _ Hrun Hrun') as [<- ->].
    apply outcome_completed_inv in Hout
      as (content & rows & ev0 & Hf & _ & _ & Hsteps & ->).
    destruct (review_steps_kinds _ _ _ Hsteps) as [Hk Hp].
    exists content, (ev0 ++ [WriteCsv csv_file (Reviews.header :: rows)]).
    repeat split; try assumption.
    + now rewrite map_app, Hk.
    + rewrite pauses_app, Hp. apply Nat.add_0_r.
  - intros r tr' Hrun.
    destruct (process_emails_outcome w file_path csv_file delimiter tr)
      as (r0 & ev & Hrun' & Hout).
    destruct (run_events _ _ _ _ _ _ Hrun Hrun') as [-> ->].
    apply email_outcome_no_sleep in Hout.
    exists ev. repeat split.
    + now apply pauses_none.
    + intros n. now apply (existsb_false_In is_sleep).
Qed.

(** Two reviews: two pauses, the second one after the last review. *)
Lemma pauses_per_record_witness :
  exists ev,
    snd (Reviews.process_reviews
           (reviews_world two_reviews (answers (lit "ok")))
           (lit "reviews.txt") (lit "out.csv") Reviews.default_delimiter []) = ev /\
    map kind_of ev =
      [KSend; KSend; KSend; KSleep 2; KSend; KSend; KSend; KSleep 2; KWrite] /\
    pauses ev = 2.
Proof.
  set (w := reviews_world two_reviews (answers (lit "ok"))).
  destruct (pauses_per_record w (lit "reviews.txt") (lit "out.csv")
              Reviews.default_delimiter []) as [H _].
  set (run := Reviews.process_reviews w (lit "reviews.txt") (lit "out.csv")
                Reviews.default_delimiter []) in *.
  assert (Hrun : run = (Ok tt, snd run)) by (vm_compute; reflexivity).
  destruct (H (snd run) Hrun) as (content & ev & Hf & Htr & Hk & Hp).
  assert (Hc : Some two_reviews = Some content) by exact Hf.
  injection Hc as <-.
  exists ev. split; [exact Htr|]. split; [exact Hk|exact Hp].
Defined.

(** C8 as worded fails: a completed run over one review pauses once, not
    zero times, and the pause comes after that last review, before the
    write. *)
Lemma pauses_between_records_counterexample :
  let content := shoes_review ++ Reviews.default_delimiter in
  let run :=
    Reviews.process_reviews (reviews_world content (answers (lit "ok")))
      (lit "reviews.txt") (lit "out.csv") Reviews.default_delimiter [] in
  fst run = Ok tt /\
  length (segments content Reviews.default_delimiter) = 1 /\
  map kind_of (snd run) = [KSend; KSend; KSend; KSleep 2; KWrite] /\
  pauses (snd run) = 1 /\
  pauses (snd run) <> length (segments content Reviews.default_delimiter) - 1.
Proof. repeat split. discriminate. Qed.

Lemma email_steps_translate (recs : list pystr) (rows : list row)
      (ev : list event) :
  steps email_step recs rows ev ->
  Forall (fun r => exists sender receiver summary_en summary_de,
              r = [sender; receiver; summary_en; summary_de] /\
              In (Send (lit "Translate the following text to Telugu: "
                          ++ summary_en) (Some summary_de)) ev) rows.
Proof.
  induction 1 as [|rec recs r rows e evs Hstep _ IH]; constructor.
  - destruct Hstep as [sender receiver body en de _].
    exists sender, receiver, en, de. split; [reflexivity|].
    apply in_or_app. left. right. now left.
  - eapply Forall_impl; [|exact IH].
    intros r' (sender & receiver & en & de & -> & Hin).
    exists sender, receiver, en, de. split; [reflexivity|].
    apply in_or_app. now right.
Qed.

(** C9. The translate operation sends the message "Translate the
    following text to Telugu: " followed by the text, for every text; in a
    completed run of the email pipeline the fourth column of every row is
    the answer to that message for the row's third column; and the fourth
    column is headed "Summary (DE)". *)
Theorem translate_to_telugu (w : world) :
  (forall text tr,
      let message := lit "Translate the following text to Telugu: " ++ text in
      Emails.translate_email w text tr =
      (match remote w (history tr) message with
       | Some answer => Ok answer
       | None => Raise RemoteError
       end,
       tr ++ [Send message (remote w (history tr) message)])) /\
  nth_error Emails.header 3 = Some (lit "Summary (DE)") /\
  (forall file_path csv_file delimiter tr tr',
      Emails.process_emails w file_path csv_file delimiter tr = (Ok tt, tr') ->
      exists rows ev,
        tr' = tr ++ ev ++ [WriteCsv csv_file (Emails.header :: rows)] /\
        Forall (fun r => exists sender receiver summary_en summary_de,
                    r = [sender; receiver; summary_en; summary_de] /\
                    In (Send (lit "Translate the following text to Telugu: "
                                ++ summary_en) (Some summary_de)) ev) rows).
Proof.
  split; [|split].
  - intros text tr message.
    unfold Emails.translate_email, send_message.
    change (Emails.translate_prompt ++ text) with message.
    now destruct (remote w (history tr) message).
  - reflexivity.
  - intros file_path csv_file delimiter tr tr' Hrun.
    destruct (process_emails_outcome w file_path csv_file delimiter tr)
      as (r & ev & Hrun' & Hout).
    destruct (run_events _ _ _ _ _ _ Hrun Hrun') as [<- ->].
    apply outcome_completed_inv in Hout
      as (content & rows & ev0 & _ & _ & _ & Hsteps & ->).
    exists rows, ev0. split; [reflexivity|].
    now apply (email_steps_translate _ _ _ Hsteps).
Qed.

(** One email, every call answered "ok": the summary "ok" is sent for
    translation to Telugu. *)
Lemma translate_to_telugu_witness :
  exists rows ev,
    snd (Emails.process_emails
           (emails_world (order_email ++ Emails.default_delimiter)
                         (answers (lit "ok")))
           (lit "email.txt") (lit "out.csv") Emails.default_delimiter []) =
      ev ++ [WriteCsv (lit "out.csv") (Emails.header :: rows)] /\
    Forall (fun r => exists sender receiver summary_en summary_de,
                r = [sender; receiver; summary_en; summary_de] /\
                In (Send (lit "Translate the following text to Telugu: "
                            ++ summary_en) (Some summary_de)) ev) rows.
Proof.
  set (w := emails_world (order_email ++ Emails.default_delimiter)
                         (answers (lit "ok"))).
  destruct (translate_to_telugu w) as (_ & _ & H).
  set (run := Emails.process_emails w (lit "email.txt") (lit "out.csv")
                Emails.default_delimiter []).
  assert (Hrun : run = (Ok tt, snd run)) by (vm_compute; reflexivity).
  destruct (H (lit "email.txt") (lit "out.csv") Emails.default_delimiter []
              (snd run) Hrun) as (rows & ev & Htr & Hall).
  exists rows, ev. split; [exact Htr|exact Hall].
Defined.

(** Padded lines and a blank line: the padding is gone and the blank line
    leaves its separator only. *)
Lemma email_body_lines_trimmed_witness :
  exists sender receiver,
    Emails.extract_email_info
      (text [lit "  Hello  "; lit "   "; lit "Subject: x"; lit " world "]) =
    Ok (sender, receiver, lit "Hello  world").
Proof.
  destruct (email_body_lines_trimmed
              (text [lit "  Hello  "; lit "   "; lit "Subject: x";
                     lit " world "]))
    as (lines & sender & receiver & Hspec & Hx & _).
  assert (Hlines : lines = [lit "  Hello  "; lit "   "; lit "Subject: x";
                            lit " world "]).
  { apply (split_spec_fun _ _ _ _ Hspec).
    apply (split_from_spec 32 [LF]); [discriminate|apply Nat.le_refl]. }
  exists sender, receiver. rewrite Hx, Hlines. reflexivity.
Defined.

(** * Further properties *)

(** ** Runs that end before the first record *)



(** ** What the records look like *)

Lemma occurs_refl (s : pystr) : occurs s s.
Proof. exists [], []. now rewrite app_nil_r. Qed.

Lemma occurs_trans (a b c : pystr) : occurs a b -> occurs b c -> occurs a c.
Proof.
  intros Hab (l & r & ->). now apply occurs_infix.
Qed.

Lemma split_spec_infix (sep s : pystr) (ps : list pystr) :
  split_spec sep s ps -> forall p, In p ps -> occurs p s.
Proof.
  induction 1 as [s _|p rest ps _ _ IH]; intros q [<-|Hin];
    try contradiction.
  - apply occurs_refl.
  - now exists [], (sep ++ rest).
  - destruct (IH _ Hin) as (l & r & ->).
    exists (p ++ sep ++ l), r. now rewrite <- !app_assoc.
Qed.

Lemma strip_occurs (s : pystr) : occurs (strip s) s.
Proof. exact (strip_infix s). Qed.

Lemma truthy_nonempty (s : pystr) : truthy s = true <-> s <> [].
Proof. destruct s; split; simpl; congruence. Qed.

Lemma segments_wellformed (content delimiter : pystr) :
  delimiter <> [] ->
  Forall (fun rec => rec <> [] /\ clean rec /\ ~ occurs delimiter rec /\
                     occurs rec content)
         (segments content delimiter).
Proof.
  intros Hd. apply Forall_forall. intros rec Hin.
  unfold segments in Hin. apply filter_In in Hin as [Hin Ht].
  apply in_map_iff in Hin as (p & <- & Hp).
  pose proof (split_from_spec (length content) delimiter content Hd (le_n _))
    as Hspec.
  repeat split.
  - now apply truthy_nonempty.
  - apply strip_clean.
  - apply strip_clean.
  - intros Hocc. apply (split_spec_pieces _ _ _ Hd Hspec _ Hp).
    apply (occurs_trans _ _ _ Hocc), strip_occurs.
  - apply (occurs_trans _ p); [apply strip_occurs|].
    now apply (split_spec_infix _ _ _ Hspec).
Qed.

(** X2. Whatever the file holds, the records the readers return are never
    empty, neither start nor end with white space, hold no occurrence of
    the delimiter, and are stretches of the file content; reading adds no
    event. *)
Theorem records_wellformed (w : world) (file_path delimiter : pystr)
        (tr tr' : trace) (recs : list pystr) :
  Reviews.read_reviews w file_path delimiter tr = (Ok recs, tr') \/
  Emails.read_emails w file_path delimiter tr = (Ok recs, tr') ->
  tr' = tr /\
  exists content,
    file_content w file_path = Some content /\
    Forall (fun rec => rec <> [] /\ clean rec /\ ~ occurs delimiter rec /\
                       occurs rec content) recs.
Proof.
  rewrite read_reviews_eq, read_emails_eq.
  intros H. assert (Hr : read_result w file_path delimiter = Ok recs /\
                         tr = tr') by (destruct H as [[= -> ->]|[= -> ->]]; auto).
  destruct Hr as [Hr <-]. split; [reflexivity|].
  apply read_result_inv in Hr as (content & Hf & Hd & ->).
  exists content. split; [exact Hf|]. now apply segments_wellformed.
Qed.

Lemma records_wellformed_witness :
  Forall (fun rec => rec <> [] /\ clean rec /\
                     ~ occurs Reviews.default_delimiter rec /\
                     occurs rec two_reviews)
         [shoes_review; hat_review].
Proof.
  destruct (records_wellformed
              (reviews_world two_reviews (answers (lit "ok")))
              (lit "reviews.txt") Reviews.default_delimiter [] []
              [shoes_review; hat_review] (or_introl eq_refl))
    as (_ & content & Hf & Hall).
  assert (Hc : Some two_reviews = Some content) by exact Hf.
  injection Hc as <-. exact Hall.
Defined.

(** ** A blank file *)

Lemma forallb_occurs (f : N -> bool) (a s : pystr) :
  occurs a s -> forallb f s = true -> forallb f a = true.
Proof.
  intros (l & r & ->). rewrite !forallb_app.
  intros H. apply andb_true_iff in H as [_ H].
  now apply andb_true_iff in H as [H _].
Qed.

Lemma segments_blank (content delimiter : pystr) :
  delimiter <> [] -> forallb isspace content = true ->
  segments content delimiter = [].
Proof.
  intros Hd Hblank. unfold segments.
  pose proof (split_spec_infix _ _ _
                (split_from_spec (length content) delimiter content Hd
                                 (le_n _))) as Hin.
  induction (split_from (length content) delimiter None content)
    as [|p ps IH]; [reflexivity|].
  simpl. rewrite (strip_spaces p).
  - simpl. apply IH. intros q Hq. apply Hin. now right.
  - apply (forallb_occurs _ _ content); [|exact Hblank].
    apply Hin. now left.
Qed.

(** X3. When the input file is empty or holds white space only, a run of
    either pipeline makes no call and no pause and writes the header
    alone, whatever the (non-empty) delimiter and the remote model. *)
Theorem blank_file_header_only (w : world)
        (file_path csv_file delimiter content : pystr) (tr : trace) :
  file_content w file_path = Some content ->
  forallb isspace content = true ->
  delimiter <> [] ->
  can_write w csv_file = true ->
  Reviews.process_reviews w file_path csv_file delimiter tr =
    (Ok tt, tr ++ [WriteCsv csv_file [Reviews.header]]) /\
  Emails.process_emails w file_path csv_file delimiter tr =
    (Ok tt, tr ++ [WriteCsv csv_file [Emails.header]]).
Proof.
  intros Hf Hblank Hd Hw.
  unfold Reviews.process_reviews, Emails.process_emails, bind.
  rewrite read_reviews_eq, read_emails_eq, (read_result_ok _ _ _ _ Hf Hd).
  rewrite (segments_blank _ _ Hd Hblank). cbn [mfor ret].
  unfold Reviews.save_to_csv, Emails.save_to_csv, write_csv.
  now rewrite Hw.
Qed.

Lemma blank_file_header_only_witness :
  Reviews.process_reviews
    (reviews_world (lit " " ++ [LF]) (fails_after 0 (lit "ok")))
    (lit "reviews.txt") (lit "out.csv") Reviews.default_delimiter [] =
  (Ok tt, [WriteCsv (lit "out.csv") [Reviews.header]]).
Proof.
  apply (blank_file_header_only
           (reviews_world (lit " " ++ [LF]) (fails_after 0 (lit "ok")))
           (lit "reviews.txt") (lit "out.csv") Reviews.default_delimiter
           (lit " " ++ [LF]) []); try reflexivity.
  discriminate.
Defined.

(** ** What the fields look like *)

Lemma In_occurs (c : N) (s : pystr) : In c s -> occurs [c] s.
Proof. intros H. apply in_split in H as (l & r & ->). now exists l, r. Qed.

Lemma In_after_first (c x : N) (s : pystr) :
  In x (after_first c s) -> In x s.
Proof.
  induction s as [|y s IH]; simpl; [tauto|].
  destruct (y =? c)%N; auto.
Qed.

Lemma In_strip (x : N) (s : pystr) : In x (strip s) -> In x s.
Proof.
  intros H. destruct (strip_infix s) as (l & r & ->).
  apply in_or_app. right. apply in_or_app. now left.
Qed.

Lemma clean_empty : clean EMPTY.
Proof. now split. Qed.

Lemma lines_no_LF (s : pystr) (lines : list pystr) :
  split_spec [LF] s lines -> forall line, In line lines -> ~ In LF line.
Proof.
  intros Hspec line Hin HLF.
  assert (Hsep : [LF] <> []) by discriminate.
  apply (split_spec_pieces [LF] s lines Hsep Hspec line Hin).
  now apply In_occurs.
Qed.

Lemma field_value_wellformed (prefix : pystr) (lines : list pystr) :
  (forall line, In line lines -> ~ In LF line) ->
  clean (field_value prefix lines) /\ ~ In LF (field_value prefix lines).
Proof.
  intros Hlines. unfold field_value, last_with_prefix.
  destruct (List.find _ (rev lines)) as [line|] eqn:F.
  - apply find_some in F as [Hin _]. apply in_rev in Hin. split.
    + apply strip_clean.
    + intros H. apply In_strip, In_after_first in H.
      now apply (Hlines line).
  - split; [apply clean_empty|intros []].
Qed.

(** X4. The product and the review text that [extract_review_info]
    returns neither start nor end with white space and hold no line feed,
    whatever the record. *)
Theorem review_fields_wellformed (review product review_text : pystr) :
  Reviews.extract_review_info review = Ok (product, review_text) ->
  (clean product /\ ~ In LF product) /\
  (clean review_text /\ ~ In LF review_text).
Proof.
  destruct (extract_review_info_eq review) as (lines & Hspec & ->).
  intros [= <- <-].
  split; apply field_value_wellformed; apply (lines_no_LF _ _ Hspec).
Qed.

Lemma review_fields_wellformed_witness :
  (clean (lit "Shoes") /\ ~ In LF (lit "Shoes")) /\
  (clean (lit "Great fit") /\ ~ In LF (lit "Great fit")).
Proof.
  apply (review_fields_wellformed shoes_review). reflexivity.
Defined.

Lemma body_text_no_LF (lines : list pystr) :
  (forall line, In line lines -> ~ In LF line) ->
  ~ In LF (body_text lines).
Proof.
  intros Hlines H. unfold body_text in H.
  apply in_concat in H as (piece & Hpiece & Hin).
  apply in_map_iff in Hpiece as (line & <- & Hline).
  apply filter_In in Hline as [Hline _].
  apply in_app_or in Hin as [Hin|Hin].
  - apply In_strip in Hin. now apply (Hlines line).
  - destruct Hin as [Hin|[]]. discriminate Hin.
Qed.

Lemma body_wellformed (lines : list pystr) :
  (forall line, In line lines -> ~ In LF line) ->
  clean (strip (body_text lines)) /\ ~ In LF (strip (body_text lines)).
Proof.
  intros Hlines. split; [apply strip_clean|].
  intros H. apply In_strip in H. now apply (body_text_no_LF lines).
Qed.

(** X5. The sender, the receiver and the body that [extract_email_info]
    returns neither start nor end with white space and hold no line feed:
    the body is one line, whatever the record. *)
Theorem email_fields_wellformed (email sender receiver body : pystr) :
  Emails.extract_email_info email = Ok (sender, receiver, body) ->
  (clean sender /\ ~ In LF sender) /\
  (clean receiver /\ ~ In LF receiver) /\
  (clean body /\ ~ In LF body).
Proof.
  destruct (extract_email_info_eq email) as (lines & Hspec & ->).
  intros [= <- <- <-].
  pose proof (lines_no_LF _ _ Hspec) as Hlines.
  split; [|split].
  - now apply field_value_wellformed.
  - now apply field_value_wellformed.
  - now apply body_wellformed.
Qed.

Lemma email_fields_wellformed_witness :
  (clean (lit "a@x.com") /\ ~ In LF (lit "a@x.com")) /\
  (clean (lit "b@x.com") /\ ~ In LF (lit "b@x.com")) /\
  (clean (lit "Thanks for the order.") /\
   ~ In LF (lit "Thanks for the order.")).
Proof.
  apply (email_fields_wellformed order_email). reflexivity.
Defined.

(** ** [analyze_sentiment] *)

Lemma normalize_sentiment_wellformed (s : pystr) :
  In (Reviews.normalize_sentiment (strip s)) Reviews.allowed_sentiments /\
  clean (Reviews.normalize_sentiment (strip s)).
Proof.
  unfold Reviews.normalize_sentiment.
  destruct (existsb _ Reviews.allowed_sentiments) eqn:E; cbn [negb].
  - split; [now apply allowed_iff|apply strip_clean].
  - split; [right; right; now left|]. split; vm_compute; reflexivity.
Qed.

(** X6. [analyze_sentiment] first asks for the classification and then
    for the reply.  When the first call fails the second is not made.
    When both are answered, the sentiment returned is one of the three
    labels, the message of the second call carries that label (not the
    raw answer of the first), and the reply returned is trimmed. *)
Theorem analyze_sentiment_calls (w : world) (review_text : pystr) (tr : trace) :
  (remote w (history tr) (Reviews.classify_prompt ++ review_text) = None ->
   Reviews.analyze_sentiment w review_text tr =
     (Raise RemoteError,
      tr ++ [Send (Reviews.classify_prompt ++ review_text) None])) /\
  (forall sentiment reply tr',
      Reviews.analyze_sentiment w review_text tr =
        (Ok (sentiment, reply), tr') ->
      In sentiment [lit "Positive"; lit "Negative"; lit "Neutral"] /\
      clean reply /\
      exists a b,
        sentiment = Reviews.normalize_sentiment (strip a) /\
        reply = strip b /\
        tr' = tr ++ [Send (Reviews.classify_prompt ++ review_text) (Some a);
                     Send (Reviews.reply_prompt ++ sentiment
                             ++ Reviews.reply_prompt_review ++ review_text)
                          (Some b)]).
Proof.
  unfold Reviews.analyze_sentiment, bind, ret, send_message. split.
  - now intros ->.
  - intros sentiment reply tr'.
    destruct (remote w (history tr) _) as [a|]; [|discriminate].
    match goal with
    | |- context [remote w ?h ?m] =>
        destruct (remote w h m) as [b|]; [|discriminate]
    end.
    intros [= <- <- <-]. split; [|split].
    + apply normalize_sentiment_wellformed.
    + apply strip_clean.
    + exists a, b. rewrite <- app_assoc. now repeat split.
Qed.

(** The classification answered with a sentence: the label sent on is
    "Neutral". *)
Lemma analyze_sentiment_calls_witness :
  Reviews.analyze_sentiment
    (reviews_world two_reviews (fails_after 0 (lit "ok"))) (lit "Great fit") [] =
    (Raise RemoteError,
     [Send (Reviews.classify_prompt ++ lit "Great fit") None]) /\
  exists a b,
    snd (Reviews.analyze_sentiment
           (reviews_world two_reviews (answers (lit "Pretty good!")))
           (lit "Great fit") []) =
    [Send (Reviews.classify_prompt ++ lit "Great fit") (Some a);
     Send (Reviews.reply_prompt ++ lit "Neutral"
             ++ Reviews.reply_prompt_review ++ lit "Great fit") (Some b)].
Proof.
  split.
  - apply (analyze_sentiment_calls
             (reviews_world two_reviews (fails_after 0 (lit "ok")))
             (lit "Great fit") []).
    reflexivity.
  - set (run := Reviews.analyze_sentiment
                  (reviews_world two_reviews (answers (lit "Pretty good!")))
                  (lit "Great fit") []).
    assert (Hrun : run = (Ok (lit "Neutral", lit "Pretty good!"), snd run))
      by (vm_compute; reflexivity).
    destruct (proj2 (analyze_sentiment_calls
                       (reviews_world two_reviews
                                      (answers (lit "Pretty good!")))
                       (lit "Great fit") []) _ _ _ Hrun)
      as (_ & _ & a & b & _ & _ & Htr).
    exists a, b. exact Htr.
Defined.

(** ** What the rows look like *)

Lemma steps_rows (step : pystr -> row -> list event -> Prop)
      (P : row -> list event -> Prop) (recs : list pystr) (rows : list row)
      (ev : list event) :
  (forall rec r e, step rec r e -> P r e) ->
  (forall r e before after, P r e -> P r (before ++ e ++ after)) ->
  steps step recs rows ev -> Forall (fun r => P r ev) rows.
Proof.
  intros Hstep Hmono. induction 1 as [|rec recs r rows e evs Hs _ IH].
  - constructor.
  - constructor.
    + apply (Hmono r e [] evs). now apply (Hstep rec).
    + eapply Forall_impl; [|exact IH]. intros r' Hr'. cbv beta in Hr'.
      rewrite <- (app_nil_r evs). now apply (Hmono r' evs e []).
Qed.

(** X7. In the file a completed run of the review pipeline writes, every
    row has as many fields as the header, every field neither starts nor
    ends with white space, and the sentiment column holds one of the three
    labels. *)
Theorem review_rows_wellformed (w : world)
        (file_path csv_file delimiter : pystr) (tr tr' : trace) :
  Reviews.process_reviews w file_path csv_file delimiter tr = (Ok tt, tr') ->
  exists data ev,
    tr' = tr ++ ev ++ [WriteCsv csv_file (Reviews.header :: data)] /\
    Forall (fun r =>
              length r = length Reviews.header /\
              Forall clean r /\
              exists sentiment,
                nth_error r 3 = Some sentiment /\
                In sentiment [lit "Positive"; lit "Negative"; lit "Neutral"])
           data.
Proof.
  intros Hrun.
  destruct (process_reviews_outcome w file_path csv_file delimiter tr)
    as (r & ev & Hrun' & Hout).
  destruct (run_events _ _ _ _ _ _ Hrun Hrun') as [<- ->].
  apply outcome_completed_inv in Hout
    as (content & rows & ev0 & _ & _ & _ & Hsteps & ->).
  exists rows, ev0. split; [reflexivity|].
  apply (steps_rows review_step
           (fun r _ =>
              length r = length Reviews.header /\
              Forall clean r /\
              exists sentiment,
                nth_error r 3 = Some sentiment /\
                In sentiment [lit "Positive"; lit "Negative"; lit "Neutral"])
           _ _ _) in Hsteps; [exact Hsteps| |auto].
  intros rec r e [product text g s rp Hx sentiment].
  destruct (extract_review_info_eq rec) as (lines & Hspec & Hx').
  rewrite Hx' in Hx. injection Hx as <- <-.
  pose proof (lines_no_LF _ _ Hspec) as Hlines.
  destruct (field_value_wellformed (lit "Product:") lines Hlines) as [Hp _].
  destruct (field_value_wellformed (lit "Review:") lines Hlines) as [Ht _].
  destruct (normalize_sentiment_wellformed s) as [Hin Hc].
  split; [reflexivity|]. split.
  - repeat constructor; try assumption; try apply strip_clean;
      try apply Hp; try apply Ht; apply Hc.
  - exists sentiment. split; [reflexivity|exact Hin].
Qed.

Lemma review_rows_wellformed_witness :
  exists data ev,
    snd (Reviews.process_reviews
           (reviews_world two_reviews (answers (lit " Pretty good! ")))
           (lit "reviews.txt") (lit "out.csv") Reviews.default_delimiter []) =
      ev ++ [WriteCsv (lit "out.csv") (Reviews.header :: data)] /\
    Forall (fun r =>
              length r = 5 /\
              Forall clean r /\
              exists sentiment,
                nth_error r 3 = Some sentiment /\
                In sentiment [lit "Positive"; lit "Negative"; lit "Neutral"])
           data.
Proof.
  set (w := reviews_world two_reviews (answers (lit " Pretty good! "))).
  set (run := Reviews.process_reviews w (lit "reviews.txt") (lit "out.csv")
                Reviews.default_delimiter []).
  assert (Hrun : run = (Ok tt, snd run)) by (vm_compute; reflexivity).
  destruct (review_rows_wellformed w _ _ _ _ _ Hrun) as (data & ev & Htr & H).
  exists data, ev. split; [exact Htr|exact H].
Defined.

(** X8. In the file a completed run of the email pipeline writes, every
    row has as many fields as the header: a sender and a receiver that
    neither start nor end with white space, then the answer to the
    summary request for the record's body and the answer to the
    translation request, both as the remote model gave them. *)
Theorem email_rows_wellformed (w : world)
        (file_path csv_file delimiter : pystr) (tr tr' : trace) :
  Emails.process_emails w file_path csv_file delimiter tr = (Ok tt, tr') ->
  exists data ev,
    tr' = tr ++ ev ++ [WriteCsv csv_file (Emails.header :: data)] /\
    Forall (fun r =>
              length r = length Emails.header /\
              exists sender receiver body summary_en summary_de,
                r = [sender; receiver; summary_en; summary_de] /\
                clean sender /\ clean receiver /\ clean body /\
                ~ In LF body /\
                In (Send (Emails.summarize_prompt ++ body) (Some summary_en))
                   ev /\
                In (Send (Emails.translate_prompt ++ summary_en)
                         (Some summary_de)) ev)
           data.
Proof.
  intros Hrun.
  destruct (process_emails_outcome w file_path csv_file delimiter tr)
    as (r & ev & Hrun' & Hout).
  destruct (run_events _ _ _ _ _ _ Hrun Hrun') as [<- ->].
  apply outcome_completed_inv in Hout
    as (content & rows & ev0 & _ & _ & _ & Hsteps & ->).
  exists rows, ev0. split; [reflexivity|].
  apply (steps_rows email_step
           (fun r ev =>
              length r = length Emails.header /\
              exists sender receiver body summary_en summary_de,
                r = [sender; receiver; summary_en; summary_de] /\
                clean sender /\ clean receiver /\ clean body /\
                ~ In LF body /\
                In (Send (Emails.summarize_prompt ++ body) (Some summary_en))
                   ev /\
                In (Send (Emails.translate_prompt ++ summary_en)
                         (Some summary_de)) ev)
           _ _ _) in Hsteps; [exact Hsteps| |].
  - intros rec r e [sender receiver body en de Hx].
    destruct (extract_email_info_eq rec) as (lines & Hspec & Hx').
    rewrite Hx' in Hx. injection Hx as <- <- <-.
    pose proof (lines_no_LF _ _ Hspec) as Hlines.
    destruct (field_value_wellformed (lit "From:") lines Hlines) as [Hs _].
    destruct (field_value_wellformed (lit "To:") lines Hlines) as [Hr _].
    destruct (body_wellformed lines Hlines) as [Hb HbLF].
    split; [reflexivity|].
    exists (field_value (lit "From:") lines), (field_value (lit "To:") lines),
      (strip (body_text lines)), en, de.
    repeat split; try assumption; try apply Hs; try apply Hr; try apply Hb.
    + now left.
    + right. now left.
  - intros r e before after (Hlen & sender & receiver & body & en & de
                             & -> & Hs & Hr & Hb & HbLF & H1 & H2).
    split; [exact Hlen|].
    exists sender, receiver, body, en, de.
    repeat split; try assumption; try apply Hs; try apply Hr; try apply Hb;
      apply in_or_app; right; apply in_or_app; now left.
Qed.

Lemma email_rows_wellformed_witness :
  exists data ev,
    snd (Emails.process_emails
           (emails_world (order_email ++ Emails.default_delimiter)
                         (answers (lit " ok ")))
           (lit "email.txt") (lit "out.csv") Emails.default_delimiter []) =
      ev ++ [WriteCsv (lit "out.csv") (Emails.header :: data)] /\
    Forall (fun r => length r = 4) data.
Proof.
  set (w := emails_world (order_email ++ Emails.default_delimiter)
                         (answers (lit " ok "))).
  set (run := Emails.process_emails w (lit "email.txt") (lit "out.csv")
                Emails.default_delimiter []).
  assert (Hrun : run = (Ok tt, snd run)) by (vm_compute; reflexivity).
  destruct (email_rows_wellformed w _ _ _ _ _ Hrun) as (data & ev & Htr & H).
  exists data, ev. split; [exact Htr|].
  eapply Forall_impl; [|exact H]. now intros r [Hlen _].
Defined.

(** ** The calls of a run *)

Lemma calls_app (a b : list event) : calls (a ++ b) = calls a + calls b.
Proof. unfold calls. now rewrite filter_app, length_app. Qed.

Lemma review_steps_calls (recs : list pystr) (rows : list row)
      (ev : list event) :
  steps review_step recs rows ev ->
  calls ev = 3 * length recs /\ length (history ev) = 3 * length recs.
Proof.
  induction 1 as [|rec recs r rows e evs Hstep _ [IHc IHh]].
  - now split.
  - rewrite calls_app, history_app, length_app, IHc, IHh.
    destruct Hstep. cbn [length]. split.
    + change (calls [_; _; _; _]) with 3. lia.
    + change (length (history [_; _; _; _])) with 3. lia.
Qed.

Lemma email_steps_calls (recs : list pystr) (rows : list row)
      (ev : list event) :
  steps email_step recs rows ev ->
  calls ev = 2 * length recs /\ length (history ev) = 2 * length recs.
Proof.
  induction 1 as [|rec recs r rows e evs Hstep _ [IHc IHh]].
  - now split.
  - rewrite calls_app, history_app, length_app, IHc, IHh.
    destruct Hstep. cbn [length]. split.
    + change (calls [_; _]) with 2. lia.
    + change (length (history [_; _])) with 2. lia.
Qed.

(** X9. A completed run over n records makes exactly 3n remote calls in
    the review pipeline and 2n in the email pipeline, and leaves the
    session that many turns longer. *)
Theorem calls_per_record (w : world) (file_path csv_file delimiter : pystr)
        (tr : trace) :
  (forall tr',
      Reviews.process_reviews w file_path csv_file delimiter tr = (Ok tt, tr') ->
      exists content ev,
        file_content w file_path = Some content /\
        tr' = tr ++ ev /\
        calls ev = 3 * length (segments content delimiter) /\
        length (history tr') =
          length (history tr) + 3 * length (segments content delimiter)) /\
  (forall tr',
      Emails.process_emails w file_path csv_file delimiter tr = (Ok tt, tr') ->
      exists content ev,
        file_content w file_path = Some content /\
        tr' = tr ++ ev /\
        calls ev = 2 * length (segments content delimiter) /\
        length (history tr') =
          length (history tr) + 2 * length (segments content delimiter)).
Proof.
  split.
  - intros tr' Hrun.
    destruct (process_reviews_outcome w file_path csv_file delimiter tr)
      as (r & ev & Hrun' & Hout).
    destruct (run_events _ _ _ _ _ _ Hrun Hrun') as [<- ->].
    apply outcome_completed_inv in Hout
      as (content & rows & ev0 & Hf & _ & _ & Hsteps & ->).
    destruct (review_steps_calls _ _ _ Hsteps) as [Hc Hh].
    exists content, (ev0 ++ [WriteCsv csv_file (Reviews.header :: rows)]).
    repeat split; try assumption.
    + rewrite calls_app, Hc. apply Nat.add_0_r.
    + rewrite !history_app, !length_app, Hh. simpl length. lia.
  - intros tr' Hrun.
    destruct (process_emails_outcome w file_path csv_file delimiter tr)
      as (r & ev & Hrun' & Hout).
    destruct (run_events _ _ _ _ _ _ Hrun Hrun') as [<- ->].
    apply outcome_completed_inv in Hout
      as (content & rows & ev0 & Hf & _ & _ & Hsteps & ->).
    destruct (email_steps_calls _ _ _ Hsteps) as [Hc Hh].
    exists content, (ev0 ++ [WriteCsv csv_file (Emails.header :: rows)]).
    repeat split; try assumption.
    + rewrite calls_app, Hc. apply Nat.add_0_r.
    + rewrite !history_app, !length_app, Hh. simpl length. lia.
Qed.

Lemma calls_per_record_witness :
  exists ev,
    snd (Reviews.process_reviews
           (reviews_world two_reviews (answers (lit "ok")))
           (lit "reviews.txt") (lit "out.csv") Reviews.default_delimiter []) = ev /\
    calls ev = 6.
Proof.
  set (w := reviews_world two_reviews (answers (lit "ok"))).
  set (run := Reviews.process_reviews w (lit "reviews.txt") (lit "out.csv")
                Reviews.default_delimiter []).
  assert (Hrun : run = (Ok tt, snd run)) by (vm_compute; reflexivity).
  destruct (proj1 (calls_per_record w (lit "reviews.txt") (lit "out.csv")
                     Reviews.default_delimiter []) _ Hrun)
    as (content & ev & Hf & Htr & Hc & _).
  assert (Hcontent : Some two_reviews = Some content) by exact Hf.
  injection Hcontent as <-.
  exists ev. split; [exact Htr|exact Hc].
Defined.

(** ** One session for the whole run *)
















(** ** A destination that cannot be written *)

Section MoreOutcomes.

Variable step : pystr -> row -> list event -> Prop.
Variable w : world.
Variable hdr : row.
Variables file_path csv_file delimiter : pystr.

Hypothesis step_no_write :
  forall rec r e, step rec r e -> existsb is_write e = false.
Hypothesis step_no_failure :
  forall rec r e, step rec r e -> existsb is_failed_send e = false.

Lemma outcome_unwritable (r : result unit) (ev : list event)
      (content : pystr) :
  file_content w file_path = Some content -> delimiter <> [] ->
  can_write w csv_file = false ->
  (forall h m, remote w h m <> None) ->
  outcome step w hdr file_path csv_file delimiter r ev ->
  r = Raise OSError /\
  exists rows, steps step (segments content delimiter) rows ev.
Proof.
  intros Hf Hd Hw Hr. inversion 1; subst; try congruence.
  - match goal with
    | Ha : aborted _ _ |- _ => destruct Ha as (sent & m & h & _ & _ & Hnone)
    end.
    now apply Hr in Hnone.
  - split; [reflexivity|].
    match goal with
    | Hc : file_content w file_path = Some ?c |- _ =>
        rewrite Hf in Hc; injection Hc as <-
    end.
    now exists rows.
Qed.



End MoreOutcomes.

(** X11. The destination is opened only after the last record: when it
    cannot be written, and the file is readable, the delimiter non-empty
    and the remote model answers, the run has made all its calls (3 per
    review with a pause each, 2 per email) before it ends with [OSError],
    nothing being written. *)
Theorem unwritable_destination (w : world)
        (file_path csv_file delimiter content : pystr) (tr : trace) :
  file_content w file_path = Some content ->
  delimiter <> [] ->
  can_write w csv_file = false ->
  (forall h m, remote w h m <> None) ->
  (exists ev,
      Reviews.process_reviews w file_path csv_file delimiter tr =
        (Raise OSError, tr ++ ev) /\
      existsb is_write ev = false /\
      calls ev = 3 * length (segments content delimiter) /\
      pauses ev = length (segments content delimiter)) /\
  (exists ev,
      Emails.process_emails w file_path csv_file delimiter tr =
        (Raise OSError, tr ++ ev) /\
      existsb is_write ev = false /\
      calls ev = 2 * length (segments content delimiter)).
Proof.
  intros Hf Hd Hw Hr. split.
  - destruct (process_reviews_outcome w file_path csv_file delimiter tr)
      as (r & ev & Hrun & Hout).
    destruct (outcome_unwritable _ _ _ _ _ _ _ _ _ Hf Hd Hw Hr Hout)
      as (-> & rows & Hsteps).
    exists ev. repeat split.
    + exact Hrun.
    + apply (steps_events _ _ _ _ _ review_step_no_write Hsteps).
    + apply (review_steps_calls _ _ _ Hsteps).
    + apply (review_steps_kinds _ _ _ Hsteps).
  - destruct (process_emails_outcome w file_path csv_file delimiter tr)
      as (r & ev & Hrun & Hout).
    destruct (outcome_unwritable _ _ _ _ _ _ _ _ _ Hf Hd Hw Hr Hout)
      as (-> & rows & Hsteps).
    exists ev. repeat split.
    + exact Hrun.
    + apply (steps_events _ _ _ _ _ email_step_no_write Hsteps).
    + apply (email_steps_calls _ _ _ Hsteps).
Qed.

Lemma unwritable_destination_witness :
  exists ev,
    Reviews.process_reviews
      (read_only_world (lit "reviews.txt") two_reviews (answers (lit "ok")))
      (lit "reviews.txt") (lit "out.csv") Reviews.default_delimiter [] =
      (Raise OSError, ev) /\
    calls ev = 6 /\ pauses ev = 2.
Proof.
  destruct (unwritable_destination
              (read_only_world (lit "reviews.txt") two_reviews
                               (answers (lit "ok")))
              (lit "reviews.txt") (lit "out.csv") Reviews.default_delimiter
              two_reviews [])
    as [(ev & Hrun & _ & Hc & Hp) _]; try reflexivity; try discriminate.
  exists ev. split; [exact Hrun|]. split; [exact Hc|exact Hp].
Defined.

(** ** A call that fails *)



(** ** What the calls of a record depend on *)

(** X13. The calls made for a record depend on its review text alone in
    the review pipeline, and on its body alone in the email pipeline: two
    records with the same text (or body) cause the same events from the
    same session, whatever their product (or sender and receiver) and
    whatever rows were collected before. *)
Theorem calls_depend_on_text (w : world) (data1 data2 : list row)
        (tr : trace) :
  (forall review1 review2 product1 product2 text,
      Reviews.extract_review_info review1 = Ok (product1, text) ->
      Reviews.extract_review_info review2 = Ok (product2, text) ->
      snd (Reviews.process_review w data1 review1 tr) =
      snd (Reviews.process_review w data2 review2 tr)) /\
  (forall email1 email2 sender1 sender2 receiver1 receiver2 body,
      Emails.extract_email_info email1 = Ok (sender1, receiver1, body) ->
      Emails.extract_email_info email2 = Ok (sender2, receiver2, body) ->
      snd (Emails.process_email w data1 email1 tr) =
      snd (Emails.process_email w data2 email2 tr)).
Proof.
  split.
  - intros review1 review2 product1 product2 text H1 H2.
    unfold Reviews.process_review, Reviews.guess_product,
      Reviews.analyze_sentiment, bind, lift, ret, sleep, send_message.
    rewrite H1, H2.
    destruct (remote w (history tr) _) as [g|]; [|reflexivity].
    match goal with
    | |- context [remote w ?h (Reviews.classify_prompt ++ text)] =>
        destruct (remote w h (Reviews.classify_prompt ++ text)) as [s|];
          [|reflexivity]
    end.
    match goal with
    | |- context [remote w ?h (Reviews.reply_prompt ++ ?x)] =>
        destruct (remote w h (Reviews.reply_prompt ++ x)); reflexivity
    end.
  - intros email1 email2 sender1 sender2 receiver1 receiver2 body H1 H2.
    unfold Emails.process_email, Emails.summarize_email,
      Emails.translate_email, bind, lift, ret, send_message.
    rewrite H1, H2.
    destruct (remote w (history tr) _) as [en|]; [|reflexivity].
    match goal with
    | |- context [remote w ?h (Emails.translate_prompt ++ en)] =>
        destruct (remote w h (Emails.translate_prompt ++ en)); reflexivity
    end.
Qed.

Lemma calls_depend_on_text_witness :
  snd (Reviews.process_review
         (reviews_world two_reviews (answers (lit "ok"))) []
         (text [lit "Product: Shoes"; lit "Review: Great fit"]) []) =
  snd (Reviews.process_review
         (reviews_world two_reviews (answers (lit "ok"))) [[lit "x"]]
         (text [lit "Review: Great fit"; lit "Product: Sandals"]) []).
Proof.
  apply (proj1 (calls_depend_on_text
                  (reviews_world two_reviews (answers (lit "ok")))
                  [] [[lit "x"]] [])
               _ _ (lit "Shoes") (lit "Sandals") (lit "Great fit"));
    reflexivity.
Defined.

(** ** [main] *)

Section Main.

Variable w : world.
Variable environ : pystr -> option pystr.
Variable run : pystr -> pystr -> pystr -> M unit.
Variable step : pystr -> row -> list event -> Prop.
Variable hdr : row.
Variables input output delimiter : pystr.

Hypothesis step_no_write :
  forall rec r e, step rec r e -> existsb is_write e = false.
Hypothesis run_outcome :
  exists r ev,
    run input output delimiter [] = (r, [] ++ ev) /\
    outcome step w hdr input output delimiter r ev.



End Main.



(** With a key and two reviews, [main] writes the file and reports no
    error. *)
Example reviews_main_completes :
  let run := Reviews.main (reviews_world two_reviews (answers (lit "ok")))
                          (environ_with_key (lit "secret")) in
  fst run = None /\
  map kind_of (snd run) =
    [KSend; KSend; KSend; KSleep 2; KSend; KSend; KSend; KSleep 2; KWrite].
Proof. split; reflexivity. Qed.



(** ** A file without the delimiter *)

(** X16. When the delimiter does not occur in the file (a file written
    for another delimiter, say), the readers take the whole content,
    trimmed, as one record, and return no record when that is empty. *)
Theorem file_without_delimiter (w : world)
        (file_path delimiter content : pystr) (tr : trace) :
  file_content w file_path = Some content ->
  delimiter <> [] ->
  ~ occurs delimiter content ->
  let recs := if truthy (strip content) then [strip content] else [] in
  Reviews.read_reviews w file_path delimiter tr = (Ok recs, tr) /\
  Emails.read_emails w file_path delimiter tr = (Ok recs, tr).
Proof.
  intros Hf Hd Hno recs.
  rewrite read_reviews_eq, read_emails_eq, (read_result_ok _ _ _ _ Hf Hd).
  unfold segments. rewrite (split_from_not_occurs _ _ _ _ Hno).
  cbn [map filter]. fold recs. now split.
Qed.

(** The two reviews read with the delimiter of the emails: one record. *)
Lemma file_without_delimiter_witness :
  Emails.read_emails (emails_world two_reviews (answers (lit "ok")))
    (lit "email.txt") Emails.default_delimiter [] =
  (Ok [two_reviews], []).
Proof.
  apply (file_without_delimiter
           (emails_world two_reviews (answers (lit "ok")))
           (lit "email.txt") Emails.default_delimiter two_reviews []).
  - reflexivity.
  - discriminate.
  - apply find_None. vm_compute. reflexivity.
Defined.
